(** * darts.utils.statistics: seasonality test and decomposition pipeline

    A shallow embedding of [src/darts/utils/statistics.py]:
    [check_seasonality], [_bartlett_formula], [extract_trend_and_seasonality],
    [remove_from_series], [remove_seasonality], [remove_trend],
    [granger_causality_tests], [plot_acf] and [plot_pacf].

    Modelling conventions.
    - A float64 is a real number ([R]): rounding, infinities and NaN are
      outside the model.  Python [int] is [Z].
    - A Python call either returns or raises: [result A] is [Ok a] or
      [Raise e].  Statements are sequenced with [x <- c ;; k].
    - NumPy indexing and slicing keep their conventions for negative and
      out-of-range indices ([getitem], [slice_upto]).
    - The statistics libraries the module calls (the autocorrelation
      estimator, the normal quantile, the seasonal decomposition) are
      parameters of the development.  [scipy.signal.argrelmax] is
      transcribed with its defaults, since the claims depend on which
      indices it can return.
    - A plot function returns the drawing calls it has issued, in order,
      together with its outcome. *)

From Stdlib Require Import Reals Lra Lia ZArith List String Bool Sorted.
Import ListNotations.

Local Open Scope R_scope.

(** ** Exceptions and the result monad *)

Inductive exn : Type :=
| ValueError (msg : string)
| ZeroDivisionError (msg : string)
| IndexError (msg : string)
| OtherError (msg : string).

Inductive result (A : Type) : Type :=
| Ok (a : A)
| Raise (e : exn).

Arguments Ok {A} a.
Arguments Raise {A} e.

Definition bind {A B : Type} (c : result A) (k : A -> result B) : result B :=
  match c with
  | Ok a => k a
  | Raise e => Raise e
  end.

Notation "x <- c ;; k" := (bind c (fun x => k))
  (at level 61, c at next level, right associativity).

(** The spec's InvalidArgument condition is Python's [ValueError]. *)
Definition InvalidArgument {A : Type} (c : result A) : Prop :=
  exists msg, c = Raise (ValueError msg).

(** Modelled from the spec: [raise_if_not] and [raise_log] are declared in
    logging.py, which is not under src/.  A failed guard surfaces to the
    caller as the InvalidArgument condition: [raise_if_not] raises
    [ValueError message] unless the condition holds, and [raise_log e] is
    [Raise e]. *)
Definition raise_if_not (condition : bool) (message : string) : result unit :=
  if condition then Ok tt else Raise (ValueError message).

(** ** Float comparisons as booleans *)

Definition Rgtb (x y : R) : bool := if Rgt_dec x y then true else false.
Definition Rltb (x y : R) : bool := if Rlt_dec x y then true else false.

(** ** NumPy and Python primitives *)

Module Py.

(** [r[i]] on a one-dimensional array: a negative index counts from the end,
    an index outside the array raises [IndexError]. *)
Definition getitem (r : list R) (i : Z) : result R :=
  let len := Z.of_nat (List.length r) in
  let j := if (i <? 0)%Z then (i + len)%Z else i in
  if ((0 <=? j) && (j <? len))%Z
  then Ok (nth (Z.to_nat j) r 0)
  else Raise (IndexError "index is out of bounds").

(** [r[:stop]]: a negative [stop] counts from the end; the bound is clamped
    to the array. *)
Definition slice_upto {A : Type} (r : list A) (stop : Z) : list A :=
  let len := Z.of_nat (List.length r) in
  let stop' := if (stop <? 0)%Z then Z.max 0 (stop + len) else Z.min stop len in
  firstn (Z.to_nat stop') r.

(** [r[1:]]. *)
Definition slice_from1 {A : Type} (r : list A) : list A := skipn 1 r.

(** The builtin [sum]: left to right, starting from 0. *)
Definition sum (xs : list R) : R := fold_left Rplus xs 0.

(** [x / n] with [n] a Python int: division by zero raises.  (With a
    float64 numerator NumPy would produce an infinity instead, which the
    reals do not have; the properties below take a positive [n].) *)
Definition truediv (x : R) (n : Z) : result R :=
  if (n =? 0)%Z then Raise (ZeroDivisionError "division by zero")
  else Ok (x / IZR n).

(** [math.sqrt]: a negative argument raises [ValueError]. *)
Definition math_sqrt (x : R) : result R :=
  if Rlt_dec x 0 then Raise (ValueError "math domain error")
  else Ok (sqrt x).

(** [ndarray.mean()] and [ndarray.var()] (population variance, ddof = 0). *)
Definition mean (xs : list R) : R := fold_left Rplus xs 0 / INR (List.length xs).

Definition var (xs : list R) : R :=
  mean (map (fun x => (x - mean xs) ^ 2) xs).

End Py.

(** ** Bartlett's formula (statistics.py, lines 99-123) *)

Definition _bartlett_formula (r : list R) (m : Z) (length : Z) : result R :=
  if (m =? 1)%Z then
    q <- Py.truediv 1 length ;;
    Py.math_sqrt q
  else
    q <- Py.truediv (1 + 2 * Py.sum (map (fun x => x ^ 2) (Py.slice_upto r (m - 1)))) length ;;
    Py.math_sqrt q.

(** ** Time series *)

(** Modelled from the spec: [darts.timeseries.TimeSeries] is declared in
    timeseries.py, which is not under src/.  A series is a time index
    together with one column of values per component; it is univariate when
    it has exactly one column.  Its arithmetic operators act elementwise on
    the values and keep the time index of the left operand; as the spec
    records, alignment of the operands is not validated.
    [_assert_univariate] raises the InvalidArgument condition on a series
    that is not univariate. *)
Record TimeSeries : Type := mkTimeSeries {
  time_index : list Z;
  columns : list (list R)
}.

Definition is_univariate (ts : TimeSeries) : bool :=
  Nat.eqb (List.length (columns ts)) 1.

Definition _assert_univariate (ts : TimeSeries) : result unit :=
  if is_univariate ts then Ok tt
  else Raise (ValueError "Only univariate TimeSeries instances are supported.").

(** [ts.values()], flattened: for a univariate series, its single column. *)
Definition values (ts : TimeSeries) : list R := List.concat (columns ts).

(** [len(ts)]: the number of time steps. *)
Definition len (ts : TimeSeries) : Z := Z.of_nat (List.length (time_index ts)).

Definition from_times_and_values (times : list Z) (vals : list R) : TimeSeries :=
  mkTimeSeries times [vals].

Fixpoint map2 {A B C : Type} (f : A -> B -> C) (xs : list A) (ys : list B) : list C :=
  match xs, ys with
  | x :: xs', y :: ys' => f x y :: map2 f xs' ys'
  | _, _ => []
  end.

Definition ts_binop (f : R -> R -> R) (ts other : TimeSeries) : TimeSeries :=
  mkTimeSeries (time_index ts) (map2 (map2 f) (columns ts) (columns other)).

Definition ts_sub : TimeSeries -> TimeSeries -> TimeSeries := ts_binop Rminus.
Definition ts_truediv : TimeSeries -> TimeSeries -> TimeSeries := ts_binop Rdiv.
Definition ts_add : TimeSeries -> TimeSeries -> TimeSeries := ts_binop Rplus.
Definition ts_mul : TimeSeries -> TimeSeries -> TimeSeries := ts_binop Rmult.

(** Two series are aligned when they share the time index and their
    columns have pairwise the same length. *)
Definition aligned (ts other : TimeSeries) : Prop :=
  time_index ts = time_index other /\
  Forall2 (fun c d => List.length c = List.length d) (columns ts) (columns other).

(** ** The decomposition model tag *)

(** Modelled from the spec: the enums [ModelMode] and [SeasonalityMode] are
    declared in utils.py, which is not under src/.  Following the spec, the
    live variants are MULTIPLICATIVE and ADDITIVE (with the string values the
    source compares against) and NONE is the sentinel the source names,
    [SeasonalityMode.NONE], whose value is [None].  [NotAMode] stands for any
    object that is a member of neither enum. *)
Inductive Model : Type :=
| ModelMode_MULTIPLICATIVE
| ModelMode_ADDITIVE
| SeasonalityMode_MULTIPLICATIVE
| SeasonalityMode_ADDITIVE
| SeasonalityMode_NONE
| NotAMode.

Definition in_ModelMode (model : Model) : bool :=
  match model with
  | ModelMode_MULTIPLICATIVE | ModelMode_ADDITIVE => true
  | _ => false
  end.

Definition in_SeasonalityMode (model : Model) : bool :=
  match model with
  | SeasonalityMode_MULTIPLICATIVE | SeasonalityMode_ADDITIVE | SeasonalityMode_NONE => true
  | _ => false
  end.

(** [model.value]. *)
Definition value (model : Model) : option string :=
  match model with
  | ModelMode_MULTIPLICATIVE | SeasonalityMode_MULTIPLICATIVE => Some "multiplicative"%string
  | ModelMode_ADDITIVE | SeasonalityMode_ADDITIVE => Some "additive"%string
  | SeasonalityMode_NONE | NotAMode => None
  end.

(** [model.value == s]. *)
Definition value_eqb (model : Model) (s : string) : bool :=
  match value model with
  | Some v => String.eqb v s
  | None => false
  end.

(** [model is SeasonalityMode.NONE]. *)
Definition is_SeasonalityMode_NONE (model : Model) : bool :=
  match model with
  | SeasonalityMode_NONE => true
  | _ => false
  end.

(** ** The requested period *)

(** The argument [m] is annotated [Optional[int]]; at run time it may also be
    a float, which the first guard of [check_seasonality] rejects. *)
Inductive PyNumber : Type :=
| PyInt (z : Z)
| PyFloat (x : R).

Definition isinstance_int (v : PyNumber) : bool :=
  match v with
  | PyInt _ => true
  | PyFloat _ => false
  end.

(** [v < k] for an int [k]. *)
Definition py_lt (v : PyNumber) (k : Z) : bool :=
  match v with
  | PyInt z => (z <? k)%Z
  | PyFloat x => Rltb x (IZR k)
  end.

(** [v > k] for an int [k]. *)
Definition py_gt (v : PyNumber) (k : Z) : bool :=
  match v with
  | PyInt z => (z >? k)%Z
  | PyFloat x => Rgtb x (IZR k)
  end.

(** Lines 55-59 of statistics.py: the two guards on [m].  The result is the
    requested period as an int, which is what the guards establish. *)
Definition check_period (m : option PyNumber) (max_lag : Z) : result (option Z) :=
  match m with
  | None => Ok None
  | Some v =>
      if py_lt v 2 || negb (isinstance_int v)
      then Raise (ValueError "m must be an integer greater than 1.")
      else if py_gt v max_lag
      then Raise (ValueError "max_lag must be greater than or equal to m.")
      else match v with
           | PyInt z => Ok (Some z)
           | PyFloat _ =>
               (* not reached: the first guard raises for every float *)
               Raise (ValueError "m must be an integer greater than 1.")
           end
  end.

(** ** Local maxima: scipy.signal.argrelmax *)

(** [data.take(i, mode='clip')]: an index outside the array is clipped to
    its first or last position. *)
Definition take_clip (data : list R) (i : Z) : R :=
  nth (Z.to_nat (Z.max 0 (Z.min i (Z.of_nat (List.length data) - 1)))) data 0.

(** [argrelmax(data)[0]] with the defaults [order=1], [mode='clip']: the
    positions, in ascending order, whose value is strictly greater than both
    (clipped) neighbours. *)
Definition argrelmax (data : list R) : list Z :=
  filter (fun i => Rgtb (take_clip data i) (take_clip data (i + 1)) &&
                   Rgtb (take_clip data i) (take_clip data (i - 1)))
         (map Z.of_nat (seq 0 (List.length data))).

(** [np.unique(values).shape[0]]: the number of distinct values. *)
Definition n_unique (vals : list R) : nat := List.length (nodup Req_dec_T vals).

(** [m in candidates]. *)
Definition mem (m : Z) (candidates : list Z) : bool := existsb (Z.eqb m) candidates.

(** ** The significance test (statistics.py, lines 84-96) *)

(** The loop of lines 92-96 over the lag-0-excluded vector [r]. *)
Fixpoint significance_loop (r : list R) (band_upper : R) (length : Z)
    (candidates : list Z) : result (bool * Z) :=
  match candidates with
  | [] => Ok (false, 0%Z)
  | candidate :: rest =>
      stat <- _bartlett_formula r (candidate - 1) length ;;
      x <- Py.getitem r (candidate - 1) ;;
      if Rgtb x (stat * band_upper) then Ok (true, candidate)
      else significance_loop r band_upper length rest
  end.

Section Statistics.

(** [statsmodels.tsa.stattools.acf(x, nlags=max_lag, fft=False)]. *)
Variable acf : list R -> Z -> result (list R).

(** [scipy.stats.norm.ppf]: the standard normal quantile function. *)
Variable norm_ppf : R -> R.

(** [statsmodels.tsa.seasonal.seasonal_decompose(series, period, model,
    extrapolate_trend='freq')], returning the pair [(seasonal, trend)] of the
    decomposition; [series] is the time index with the values. *)
Variable seasonal_decompose :
  list Z -> list R -> option Z -> option string -> result (list R * list R).

(** The upper limit of line 88. *)
Definition band_upper (r : list R) (alpha : R) : R :=
  Py.mean r + norm_ppf (1 - alpha / 2) * Py.var r.

(** Lines 84-96. *)
Definition significance (ts : TimeSeries) (r : list R) (alpha : R)
    (candidates : list Z) : result (bool * Z) :=
  let r := Py.slice_from1 r in
  significance_loop r (band_upper r alpha) (len ts) candidates.

Definition check_seasonality (ts : TimeSeries) (m : option PyNumber)
    (max_lag : Z) (alpha : R) : result (bool * Z) :=
  _ <- _assert_univariate ts ;;
  m <- check_period m max_lag ;;
  if Nat.eqb (n_unique (values ts)) 1 then Ok (false, 0%Z)
  else
    r <- acf (values ts) max_lag ;;
    let candidates := argrelmax r in
    if Nat.eqb (List.length candidates) 0 then Ok (false, 0%Z)
    else
      match m with
      | Some m =>
          if negb (mem m candidates) then Ok (false, m)
          else significance ts r alpha [m]
      | None => significance ts r alpha candidates
      end.

(** ** Decomposition and removal (statistics.py, lines 126-255) *)

Definition extract_trend_and_seasonality (ts : TimeSeries) (freq : option Z)
    (model : Model) : result (TimeSeries * TimeSeries) :=
  _ <- _assert_univariate ts ;;
  _ <- raise_if_not (in_ModelMode model || in_SeasonalityMode model)
         "Unknown value for model_mode." ;;
  _ <- raise_if_not (negb (is_SeasonalityMode_NONE model))
         "The model must be either MULTIPLICATIVE or ADDITIVE." ;;
  decomp <- seasonal_decompose (time_index ts) (values ts) freq (value model) ;;
  let season := from_times_and_values (time_index ts) (fst decomp) in
  let trend := from_times_and_values (time_index ts) (snd decomp) in
  Ok (trend, season).

Definition remove_from_series (ts other : TimeSeries) (model : Model)
    : result TimeSeries :=
  _ <- _assert_univariate ts ;;
  _ <- raise_if_not (in_ModelMode model || in_SeasonalityMode model)
         "Unknown value for model_mode." ;;
  if value_eqb model "multiplicative" then Ok (ts_truediv ts other)
  else if value_eqb model "additive" then Ok (ts_sub ts other)
  else Raise (ValueError "Invalid parameter; must be either ADDITIVE or MULTIPLICATIVE.").

Definition remove_seasonality (ts : TimeSeries) (freq : option Z)
    (model : Model) : result TimeSeries :=
  _ <- _assert_univariate ts ;;
  _ <- raise_if_not (negb (is_SeasonalityMode_NONE model))
         "The model must be either MULTIPLICATIVE or ADDITIVE." ;;
  ts_pair <- extract_trend_and_seasonality ts freq model ;;
  remove_from_series ts (snd ts_pair) model.

Definition remove_trend (ts : TimeSeries) (model : Model) : result TimeSeries :=
  _ <- _assert_univariate ts ;;
  ts_pair <- extract_trend_and_seasonality ts None model ;;
  remove_from_series ts (fst ts_pair) model.

End Statistics.

(** ** The spec's reading of Bartlett's sum *)

(** [sum(r[i]^2 for i in 0..k-1)], by index. *)
Definition sum_sq_upto (r : list R) (k : nat) : R :=
  Py.sum (map (fun i => nth i r 0 ^ 2) (seq 0 k)).

(** ** Instances of the collaborators and sample inputs *)

(** The direct (non-FFT) autocorrelation estimator of statsmodels, with its
    defaults (demeaned, not adjusted): the autocovariance at lag [k] is
    [sum(xo[t] * xo[t+k]) / n] over the demeaned values [xo], and the
    autocorrelations are the autocovariances at lags [0..nlags] (at most
    [n] of them) divided by the one at lag 0. *)
Definition acovf (x : list R) (k : nat) : R :=
  let xo := map (fun v => v - Py.mean x) x in
  Py.sum (map2 Rmult xo (skipn k xo)) / INR (List.length x).

Definition acf_direct (x : list R) (nlags : Z) : result (list R) :=
  Ok (map (fun k => acovf x k / acovf x 0)
          (seq 0 (Nat.min (List.length x) (Z.to_nat (nlags + 1))))).

(** An autocorrelation collaborator that cannot be consulted: every call
    raises. *)
Definition acf_unavailable (x : list R) (nlags : Z) : result (list R) :=
  Raise (OtherError "acf is not available").

(** A stand-in for the normal quantile: [z(0.975)] to two decimals. *)
Definition ppf_196 (p : R) : R := 196 / 100.

(** A decomposition with a flat seasonal component: additive when the model
    is ['additive'] (seasonal 0), multiplicative otherwise (seasonal 1). *)
Definition flat_decompose (index : list Z) (vals : list R) (period : option Z)
    (model : option string) : result (list R * list R) :=
  match model with
  | Some s =>
      if String.eqb s "additive" then Ok (map (fun _ => 0) vals, vals)
      else Ok (map (fun _ => 1) vals, vals)
  | None => Raise (OtherError "'NoneType' object has no attribute 'startswith'")
  end.

(** The series 1, 2, 1, 2 (alternating), 1, 2, 3 (a trend) and 3, 3, 3
    (constant), each over the time index 0, 1, 2, ... *)
Definition ts_alternating : TimeSeries := from_times_and_values [0; 1; 2; 3]%Z [1; 2; 1; 2].
Definition ts_trend : TimeSeries := from_times_and_values [0; 1; 2]%Z [1; 2; 3].
Definition ts_constant : TimeSeries := from_times_and_values [0; 1; 2]%Z [3; 3; 3].

(** A component aligned with [ts_alternating], nowhere zero. *)
Definition ts_component : TimeSeries :=
  from_times_and_values [0; 1; 2; 3]%Z [1 / 2; 2; 1 / 2; 2].

(** ** Outcome of the test of line 94 on one candidate *)

(** Candidate [c] passes: the standard error and [r[c-1]] are both computed
    and [r[c-1] > stat * upper_bound]. *)
Definition significant (r : list R) (upper_bound : R) (n : Z) (c : Z) : Prop :=
  exists stat x,
    _bartlett_formula r (c - 1) n = Ok stat /\
    Py.getitem r (c - 1) = Ok x /\
    x > stat * upper_bound.

(** Candidate [c] is examined and fails the comparison. *)
Definition insignificant (r : list R) (upper_bound : R) (n : Z) (c : Z) : Prop :=
  exists stat x,
    _bartlett_formula r (c - 1) n = Ok stat /\
    Py.getitem r (c - 1) = Ok x /\
    ~ x > stat * upper_bound.

(** The requested period satisfies the preconditions: absent, or an int
    in [2, max_lag]. *)
Definition valid_period (m : option PyNumber) (max_lag : Z) : Prop :=
  match m with
  | None => True
  | Some (PyInt z) => (2 <= z <= max_lag)%Z
  | Some (PyFloat _) => False
  end.

(** The two live variants of the model tag, in either enum. *)
Definition is_ADDITIVE (model : Model) : Prop :=
  model = ModelMode_ADDITIVE \/ model = SeasonalityMode_ADDITIVE.

Definition is_MULTIPLICATIVE (model : Model) : Prop :=
  model = ModelMode_MULTIPLICATIVE \/ model = SeasonalityMode_MULTIPLICATIVE.

(** The requested period violates a precondition: it is not an int, it is
    less than 2, or it exceeds [max_lag]. *)
Definition invalid_period (v : PyNumber) (max_lag : Z) : Prop :=
  match v with
  | PyInt z => (z < 2)%Z \/ (max_lag < z)%Z
  | PyFloat _ => True
  end.

(** The requested period as an int, once validated. *)
Definition period_of (m : option PyNumber) : option Z :=
  match m with
  | Some (PyInt z) => Some z
  | _ => None
  end.

(** ** Correlogram plots (statistics.py, lines 311-434) *)

(** Modelled from the spec: [raise_if] is declared in logging.py, which is
    not under src/; it is the dual of [raise_if_not] and raises
    [ValueError message] if the condition holds. *)
Definition raise_if (condition : bool) (message : string) : result unit :=
  raise_if_not (negb condition) message.

Definition Rleb (x y : R) : bool := if Rle_dec x y then true else false.

(** [range(lo, hi)]. *)
Definition py_range (lo hi : Z) : list Z :=
  map (fun k => (lo + Z.of_nat k)%Z) (seq 0 (Z.to_nat (hi - lo))).

(** [lo <= v <= hi] for ints [lo], [hi]. *)
Definition py_between (lo : Z) (v : PyNumber) (hi : Z) : bool :=
  match v with
  | PyInt z => ((lo <=? z) && (z <=? hi))%Z
  | PyFloat x => Rleb (IZR lo) x && Rleb x (IZR hi)
  end.

(** [i == v] for an int [i]: a float compares equal to the int of the same
    value. *)
Definition py_eq_int (i : Z) (v : PyNumber) : bool :=
  match v with
  | PyInt z => (i =? z)%Z
  | PyFloat x => if Req_dec_T (IZR i) x then true else false
  end.

(** [confint[i]] on an array of rows, with NumPy's index conventions. *)
Definition getitem_row (rows : list (R * R)) (i : Z) : result (R * R) :=
  let len := Z.of_nat (List.length rows) in
  let j := if (i <? 0)%Z then (i + len)%Z else i in
  if ((0 <=? j) && (j <? len))%Z
  then Ok (nth (Z.to_nat j) rows (0, 0))
  else Raise (IndexError "index is out of bounds").

(** A list comprehension whose body may raise: left to right, stopping at
    the first exception. *)
Fixpoint comprehension {A B : Type} (f : A -> result B) (xs : list A)
    : result (list B) :=
  match xs with
  | [] => Ok []
  | x :: xs' =>
      y <- f x ;;
      ys <- comprehension f xs' ;;
      Ok (y :: ys)
  end.

(** The drawing calls a plot function issues, in order.  [Pyplot] is the
    module-level state machine [plt]; [Axis h] is an axis object handed in
    by the caller. *)
Inductive Canvas : Type :=
| Pyplot
| Axis (handle : nat).

Inductive Cmd : Type :=
| Figure (figsize : Z * Z)
| Plot (on : Canvas) (xs : Z * Z) (ys : R * R) (color : string) (lw : option R)
| FillBetween (on : Canvas) (xs : list Z) (upper lower : list R)
    (color : string) (alpha : R).

(** The three guards of lines 345-349 (and 412-416).  Each returns the
    argument it has validated. *)
Definition check_max_lag (max_lag : option Z) (bound : Z) (message : string)
    : result Z :=
  match max_lag with
  | None => Raise (ValueError message)
  | Some k =>
      _ <- raise_if (negb ((1 <=? k) && (k <? bound))%Z) message ;;
      Ok k
  end.

Definition check_highlight (m : option PyNumber) (max_lag : Z) : result unit :=
  raise_if
    (match m with
     | Some v => negb (py_between 0 v max_lag)
     | None => false
     end)
    "m must be greater than or equal to 0 and less than or equal to max_lag.".

Definition check_alpha (alpha : option R) : result R :=
  match alpha with
  | None => Raise (ValueError "alpha must be greater than 0 and less than 1.")
  | Some a =>
      _ <- raise_if (negb (Rltb 0 a && Rltb a 1))
             "alpha must be greater than 0 and less than 1." ;;
      Ok a
  end.

(** [m is not None and i == m]. *)
Definition is_highlighted (m : option PyNumber) (i : Z) : bool :=
  match m with
  | Some v => py_eq_int i v
  | None => false
  end.

(** The stem drawn at lag [i] (lines 357-361). *)
Definition stem (on : Canvas) (r : list R) (m : option PyNumber) (i : Z) : Cmd :=
  Plot on (i, i) (0, nth (Z.to_nat i) r 0)
       (if is_highlighted m i then "#b512b8" else "black")
       (Some (if is_highlighted m i then 1 else 1 / 2)).

(** [[confint[lag][1] - r[lag] for lag in range(1, max_lag + 1)]]. *)
Definition upp_band (r : list R) (confint : list (R * R)) (max_lag : Z)
    : result (list R) :=
  comprehension
    (fun lag =>
       row <- getitem_row confint lag ;;
       x <- Py.getitem r lag ;;
       Ok (snd row - x))
    (py_range 1 (max_lag + 1)).

(** Lines 353-367 (and 420-434, which repeat them): the figure when no
    axis is given, one stem per entry of [r], the confidence band and the
    base line.  The result pairs what has been drawn with the outcome, so
    that an exception after the stems keeps them. *)
Definition draw_correlogram (r : list R) (confint : list (R * R))
    (m : option PyNumber) (max_lag : Z) (fig_size : Z * Z)
    (axis : option nat) : list Cmd * result unit :=
  let setup := match axis with None => [Figure fig_size] | Some _ => [] end in
  let on := match axis with None => Pyplot | Some h => Axis h end in
  let stems := map (stem on r m) (py_range 0 (Z.of_nat (List.length r))) in
  match upp_band r confint max_lag with
  | Raise e => (setup ++ stems, Raise e)
  | Ok band =>
      (setup ++ stems ++
       [FillBetween on (py_range 1 (max_lag + 1)) band (map Ropp band)
          "#003DFD" (1 / 4);
        Plot on (0%Z, (max_lag + 1)%Z) (0, 0) "black" None],
       Ok tt)
  end.

Section Plots.

(** [statsmodels.tsa.stattools.acf(x, nlags, fft=False, alpha,
    bartlett_confint)] and [pacf(x, nlags, method, alpha)]: the
    correlations with their confidence intervals. *)
Variable acf_confint : list R -> Z -> R -> bool -> result (list R * list (R * R)).
Variable pacf_confint : list R -> Z -> string -> R -> result (list R * list (R * R)).

Definition plot_acf (ts : TimeSeries) (m : option PyNumber) (max_lag : option Z)
    (alpha : option R) (bartlett_confint : bool) (fig_size : Z * Z)
    (axis : option nat) : list Cmd * result unit :=
  match
    (_ <- _assert_univariate ts ;;
     max_lag <- check_max_lag max_lag (len ts)
       "max_lag must be greater than or equal to 1 and less than len(ts)." ;;
     _ <- check_highlight m max_lag ;;
     alpha <- check_alpha alpha ;;
     rc <- acf_confint (values ts) max_lag alpha bartlett_confint ;;
     Ok (max_lag, rc))
  with
  | Raise e => ([], Raise e)
  | Ok (max_lag, (r, confint)) => draw_correlogram r confint m max_lag fig_size axis
  end.

Definition plot_pacf (ts : TimeSeries) (m : option PyNumber) (max_lag : option Z)
    (method : string) (alpha : option R) (fig_size : Z * Z)
    (axis : option nat) : list Cmd * result unit :=
  match
    (_ <- _assert_univariate ts ;;
     max_lag <- check_max_lag max_lag (len ts / 2)
       "max_lag must be greater than or equal to 1 and less than len(ts)//2." ;;
     _ <- check_highlight m max_lag ;;
     alpha <- check_alpha alpha ;;
     rc <- pacf_confint (values ts) max_lag method alpha ;;
     Ok (max_lag, rc))
  with
  | Raise e => ([], Raise e)
  | Ok (max_lag, (r, confint)) => draw_correlogram r confint m max_lag fig_size axis
  end.

End Plots.

(** ** Granger causality (statistics.py, lines 258-309) *)

(** Modelled from the spec: [has_same_time_as] is a method of [TimeSeries]
    (timeseries.py, not under src/); two series share their time when
    their time indexes are identical. *)
Definition has_same_time_as (ts other : TimeSeries) : bool :=
  if list_eq_dec Z.eq_dec (time_index ts) (time_index other) then true else false.

(** [np.concatenate((a, b), axis=1)] on two single-column arrays: a
    two-column array, or [ValueError] when the numbers of rows differ. *)
Definition concatenate_columns (a b : list R) : result (list (R * R)) :=
  if Nat.eqb (List.length a) (List.length b) then Ok (combine a b)
  else Raise (ValueError "all the input array dimensions except for the concatenation axis must match exactly").

Section Granger.

(** The result type of statsmodels' [grangercausalitytests] and the
    function itself; [_assert_deterministic] is the [TimeSeries] method,
    which raises on a series with more than one sample per time step. *)
Variable GrangerResult : Type.
Variable grangercausalitytests :
  list (R * R) -> Z -> bool -> bool -> result GrangerResult.
Variable _assert_deterministic : TimeSeries -> result unit.

Definition granger_causality_tests (ts_cause ts_effect : TimeSeries)
    (maxlag : Z) (addconst verbose : bool) : result GrangerResult :=
  _ <- _assert_univariate ts_cause ;;
  _ <- _assert_univariate ts_effect ;;
  _ <- _assert_deterministic ts_cause ;;
  _ <- _assert_deterministic ts_effect ;;
  _ <- raise_if (negb (has_same_time_as ts_cause ts_effect))
         "ts_cause and ts_effect time series have different time index." ;;
  data <- concatenate_columns (values ts_effect) (values ts_cause) ;;
  grangercausalitytests data maxlag addconst verbose.

End Granger.

(** A series with two components, and a correlogram collaborator that
    returns [nlags + 1] correlations 1, 1/2, 1/3, ... with the interval
    [x - 1/10, x + 1/10] around each. *)
Definition ts_bivariate : TimeSeries :=
  mkTimeSeries [0; 1; 2; 3]%Z [[1; 2; 1; 2]; [2; 1; 2; 1]].

Definition harmonic_confint (x : list R) (nlags : Z) : list R * list (R * R) :=
  let r := map (fun k => 1 / INR (S k)) (seq 0 (Z.to_nat (nlags + 1))) in
  (r, map (fun v => (v - 1 / 10, v + 1 / 10)) r).

(** ** Accepted arguments of the correlogram plots *)

(** The period to highlight lies in [0, max_lag]. *)
Definition highlight_in_range (m : option PyNumber) (max_lag : Z) : Prop :=
  match m with
  | None => True
  | Some (PyInt z) => (0 <= z <= max_lag)%Z
  | Some (PyFloat x) => 0 <= x <= IZR max_lag
  end.

(** [max_lag] is given and in [1, bound - 1], [m] is absent or in
    [0, max_lag], and [alpha] is given and strictly between 0 and 1. *)
Definition correlogram_args_ok (bound : Z) (m : option PyNumber)
    (max_lag : option Z) (alpha : option R) : Prop :=
  exists k a,
    max_lag = Some k /\ (1 <= k < bound)%Z /\ highlight_in_range m k /\
    alpha = Some a /\ 0 < a < 1.

(** A drawing call in the highlight colour. *)
Definition is_highlight (c : Cmd) : bool :=
  match c with
  | Plot _ _ _ color _ => String.eqb color "#b512b8"
  | _ => false
  end.

(** The confidence band drawn for [r] and [confint]: at each lag from 1
    to [max_lag], the upper confidence limit minus the correlation. *)
Definition band_of (r : list R) (confint : list (R * R)) (max_lag : Z) : list R :=
  map (fun lag => snd (nth (Z.to_nat lag) confint (0, 0)) - nth (Z.to_nat lag) r 0)
      (py_range 1 (max_lag + 1)).

(** * Properties *)

(** ** Primitives *)

Lemma fold_left_Rplus_acc (xs : list R) (a : R) :
  fold_left Rplus xs a = a + fold_left Rplus xs 0.
Proof.
  revert a; induction xs as [|x xs IH]; intros a; simpl.
  - lra.
  - rewrite (IH (a + x)), (IH (0 + x)). lra.
Qed.

Lemma sum_cons (x : R) (xs : list R) : Py.sum (x :: xs) = x + Py.sum xs.
Proof.
  unfold Py.sum; simpl. rewrite fold_left_Rplus_acc. lra.
Qed.

Lemma sum_nil : Py.sum [] = 0.
Proof. reflexivity. Qed.

Lemma sum_sq_nonneg (xs : list R) : 0 <= Py.sum (map (fun x => x ^ 2) xs).
Proof.
  induction xs as [|x xs IH].
  - cbn [map]. rewrite sum_nil. lra.
  - cbn [map]. rewrite sum_cons. pose proof (pow2_ge_0 x). lra.
Qed.

Lemma truediv_nonzero (x : R) (n : Z) :
  n <> 0%Z -> Py.truediv x n = Ok (x / IZR n).
Proof.
  intros Hn. unfold Py.truediv.
  destruct (Z.eqb_spec n 0); [contradiction | reflexivity].
Qed.

Lemma math_sqrt_nonneg (x : R) : 0 <= x -> Py.math_sqrt x = Ok (sqrt x).
Proof.
  intros Hx. unfold Py.math_sqrt.
  destruct (Rlt_dec x 0); [lra | reflexivity].
Qed.

Lemma Rgtb_true (x y : R) : Rgtb x y = true <-> x > y.
Proof.
  unfold Rgtb. destruct (Rgt_dec x y); split; intros; try easy.
Qed.

Lemma Rgtb_false (x y : R) : Rgtb x y = false <-> ~ x > y.
Proof.
  unfold Rgtb. destruct (Rgt_dec x y); split; intros; try easy.
Qed.

Lemma slice_upto_nonneg {A : Type} (r : list A) (k : Z) :
  (0 <= k)%Z -> Py.slice_upto r k = firstn (Z.to_nat k) r.
Proof.
  intros Hk. unfold Py.slice_upto.
  destruct (Z.ltb_spec k 0); [lia |].
  destruct (Z.le_ge_cases k (Z.of_nat (List.length r))) as [Hle | Hge].
  - rewrite Z.min_l by assumption. reflexivity.
  - rewrite Z.min_r by assumption. rewrite Nat2Z.id.
    rewrite firstn_all. symmetry. apply firstn_all2. lia.
Qed.

Lemma slice_upto_minus1 {A : Type} (r : list A) :
  Py.slice_upto r (-1) = removelast r.
Proof.
  unfold Py.slice_upto.
  change (-1 <? 0)%Z with true. cbv iota.
  rewrite removelast_firstn_len. f_equal.
  destruct r as [|x r]; simpl List.length; simpl Nat.pred; lia.
Qed.

Lemma map_firstn_by_index (f : R -> R) (r : list R) (k : nat) :
  (k <= List.length r)%nat ->
  map f (firstn k r) = map (fun i => f (nth i r 0)) (seq 0 k).
Proof.
  revert k. induction r as [|x r IH]; intros k Hk; simpl in Hk.
  - assert (k = 0%nat) by lia. subst k. reflexivity.
  - destruct k as [|k]; [reflexivity |].
    simpl. f_equal. rewrite <- seq_shift, map_map. apply IH. lia.
Qed.

(** ** Bartlett's formula *)

(** The radicand of the general branch, for a sample length [n > 0]. *)
Lemma bartlett_general (r : list R) (m n : Z) :
  m <> 1%Z -> (0 < n)%Z ->
  _bartlett_formula r m n =
  Ok (sqrt ((1 + 2 * Py.sum (map (fun x => x ^ 2) (Py.slice_upto r (m - 1)))) / IZR n)).
Proof.
  intros Hm Hn. unfold _bartlett_formula.
  destruct (Z.eqb_spec m 1); [contradiction |].
  rewrite truediv_nonzero by lia. cbn [bind].
  apply math_sqrt_nonneg.
  pose proof (sum_sq_nonneg (Py.slice_upto r (m - 1))).
  apply Rmult_le_pos; [lra |].
  apply Rlt_le, Rinv_0_lt_compat, IZR_lt. assumption.
Qed.

Lemma bartlett_order_1 (r : list R) (n : Z) :
  (0 < n)%Z -> _bartlett_formula r 1 n = Ok (sqrt (1 / IZR n)).
Proof.
  intros Hn. unfold _bartlett_formula. simpl (_ =? _)%Z. cbv iota.
  rewrite truediv_nonzero by lia. cbn [bind].
  apply math_sqrt_nonneg.
  apply Rmult_le_pos; [lra |].
  apply Rlt_le, Rinv_0_lt_compat, IZR_lt. assumption.
Qed.

(** C4: for a sample length [n > 0], [bartlett(r, 1, n)] is [sqrt(1/n)]
    whatever [r] is; for [m > 1] it is
    [sqrt((1 + 2 * sum of the squares of the first m-1 elements of r) / n)],
    which is the sum of [r[i]^2] for [i] in [0..m-2] when [r] has at least
    [m-1] elements. *)
Theorem bartlett_formula_spec (r : list R) (m n : Z) :
  (0 < n)%Z ->
  (m = 1%Z -> _bartlett_formula r m n = Ok (sqrt (1 / IZR n))) /\
  ((1 < m)%Z ->
     _bartlett_formula r m n =
     Ok (sqrt ((1 + 2 * Py.sum (map (fun x => x ^ 2) (firstn (Z.to_nat (m - 1)) r))) / IZR n)) /\
     ((m - 1 <= Z.of_nat (List.length r))%Z ->
      _bartlett_formula r m n =
      Ok (sqrt ((1 + 2 * sum_sq_upto r (Z.to_nat (m - 1))) / IZR n)))).
Proof.
  intros Hn. split.
  - intros ->. apply bartlett_order_1. assumption.
  - intros Hm.
    assert (Hgen : _bartlett_formula r m n =
      Ok (sqrt ((1 + 2 * Py.sum (map (fun x => x ^ 2) (firstn (Z.to_nat (m - 1)) r))) / IZR n))).
    { rewrite bartlett_general by lia. rewrite slice_upto_nonneg by lia. reflexivity. }
    split; [exact Hgen |].
    intros Hlen. rewrite Hgen. unfold sum_sq_upto.
    rewrite (map_firstn_by_index (fun x => x ^ 2)) by lia. reflexivity.
Qed.

Lemma bartlett_formula_spec_witness :
  (0 < 4)%Z /\
  _bartlett_formula [1 / 2; 1 / 4; 1 / 8] 1 4 = Ok (sqrt (1 / IZR 4)) /\
  _bartlett_formula [1 / 2; 1 / 4; 1 / 8] 3 4 =
  Ok (sqrt ((1 + 2 * Py.sum [(1 / 2) ^ 2; (1 / 4) ^ 2]) / IZR 4)).
Proof.
  split; [lia |]. split.
  - apply (proj1 (bartlett_formula_spec [1 / 2; 1 / 4; 1 / 8] 1 4 ltac:(lia))).
    reflexivity.
  - destruct (proj2 (bartlett_formula_spec [1 / 2; 1 / 4; 1 / 8] 3 4 ltac:(lia))
                ltac:(lia)) as [Hsum _].
    exact Hsum.
Defined.

(** C10: with [m = 0] the general branch is taken and the slice [r[:-1]]
    drops the last element of [r]: the result is
    [sqrt((1 + 2 * sum of the squares of all elements but the last) / n)].
    On [r = [1; 1]], [n = 1] this is [sqrt 3], which is neither
    [sqrt(1/n)] nor the value on an empty prefix (both are [sqrt 1]). *)
Theorem bartlett_order_0 (r : list R) (n : Z) :
  (0 < n)%Z ->
  _bartlett_formula r 0 n =
  Ok (sqrt ((1 + 2 * Py.sum (map (fun x => x ^ 2) (removelast r))) / IZR n)) /\
  _bartlett_formula [1; 1] 0 1 = Ok (sqrt 3) /\
  _bartlett_formula [1; 1] 0 1 <> Ok (sqrt (1 / IZR 1)) /\
  _bartlett_formula [1; 1] 0 1 <>
  Ok (sqrt ((1 + 2 * Py.sum (map (fun x => x ^ 2) (@nil R))) / IZR 1)).
Proof.
  intros Hn.
  assert (H3 : _bartlett_formula [1; 1] 0 1 = Ok (sqrt 3)).
  { rewrite bartlett_general by lia. rewrite slice_upto_minus1.
    simpl removelast. simpl map. rewrite sum_cons, sum_nil.
    do 2 f_equal. lra. }
  assert (Hneq : sqrt 3 <> sqrt 1).
  { intros Heq. apply sqrt_inj in Heq; lra. }
  split; [| split; [exact H3 | split]].
  - rewrite bartlett_general by lia. rewrite slice_upto_minus1. reflexivity.
  - rewrite H3. intros Heq. injection Heq as Heq. apply Hneq.
    rewrite Heq. f_equal. lra.
  - rewrite H3. intros Heq. injection Heq as Heq. apply Hneq.
    rewrite Heq. simpl map. rewrite sum_nil. f_equal. lra.
Qed.

Lemma bartlett_order_0_witness :
  (0 < 4)%Z /\
  _bartlett_formula [1 / 2; 1 / 4; 1 / 8] 0 4 =
  Ok (sqrt ((1 + 2 * Py.sum (map (fun x => x ^ 2) (removelast [1 / 2; 1 / 4; 1 / 8]))) / IZR 4)).
Proof.
  split; [lia |].
  apply (proj1 (bartlett_order_0 [1 / 2; 1 / 4; 1 / 8] 4 ltac:(lia))).
Defined.

(** ** Local maxima *)

Lemma Rgtb_irrefl (x : R) : Rgtb x x = false.
Proof. apply Rgtb_false. lra. Qed.

Lemma take_clip_before_first (data : list R) :
  take_clip data (0 - 1) = take_clip data 0.
Proof. unfold take_clip. f_equal. lia. Qed.

Lemma take_clip_after_last (data : list R) :
  take_clip data (Z.of_nat (List.length data) - 1 + 1) =
  take_clip data (Z.of_nat (List.length data) - 1).
Proof. unfold take_clip. f_equal. lia. Qed.

(** A local maximum is never the first nor the last position. *)
Lemma argrelmax_bounds (data : list R) (c : Z) :
  In c (argrelmax data) -> (1 <= c <= Z.of_nat (List.length data) - 2)%Z.
Proof.
  unfold argrelmax. rewrite filter_In, in_map_iff.
  intros [(i & <- & Hi) Hgt]. apply in_seq in Hi.
  apply andb_prop in Hgt. destruct Hgt as [Hnext Hprev].
  destruct (Z.eq_dec (Z.of_nat i) 0) as [H0 | H0].
  - rewrite H0, take_clip_before_first, Rgtb_irrefl in Hprev. discriminate.
  - destruct (Z.eq_dec (Z.of_nat i) (Z.of_nat (List.length data) - 1)) as [Hl | Hl].
    + rewrite Hl, take_clip_after_last, Rgtb_irrefl in Hnext. discriminate.
    + lia.
Qed.

Lemma StronglySorted_filter {A : Type} (lt : A -> A -> Prop) (f : A -> bool)
    (xs : list A) :
  StronglySorted lt xs -> StronglySorted lt (filter f xs).
Proof.
  induction 1 as [|x xs Hs IH Hall]; simpl.
  - constructor.
  - destruct (f x); [| exact IH].
    constructor; [exact IH |].
    rewrite Forall_forall in *. intros y Hy.
    apply filter_In in Hy. apply Hall, Hy.
Qed.

Lemma positions_sorted (a n : nat) :
  StronglySorted Z.lt (map Z.of_nat (seq a n)).
Proof.
  revert a. induction n as [|n IH]; intros a; simpl.
  - constructor.
  - constructor; [apply IH |].
    rewrite Forall_forall. intros y Hy.
    apply in_map_iff in Hy. destruct Hy as (i & <- & Hi).
    apply in_seq in Hi. lia.
Qed.

(** The candidates come in ascending order. *)
Lemma argrelmax_sorted (data : list R) : StronglySorted Z.lt (argrelmax data).
Proof.
  unfold argrelmax. apply StronglySorted_filter, positions_sorted.
Qed.

Lemma mem_In (m : Z) (candidates : list Z) :
  mem m candidates = true <-> In m candidates.
Proof.
  unfold mem. rewrite existsb_exists. split.
  - intros (x & Hx & Heq). apply Z.eqb_eq in Heq. subst. exact Hx.
  - intros Hin. exists m. split; [exact Hin | apply Z.eqb_refl].
Qed.

(** ** The guards on the requested period *)

Lemma check_period_valid (m : option PyNumber) (max_lag : Z) :
  valid_period m max_lag -> check_period m max_lag = Ok (period_of m).
Proof.
  destruct m as [[z | x] |]; simpl; intros Hv; [| contradiction | reflexivity].
  destruct (Z.ltb_spec z 2); [lia |]. simpl.
  unfold Z.gtb. destruct (Z.compare_spec z max_lag); try reflexivity. lia.
Qed.

Lemma check_period_invalid (m : option PyNumber) (max_lag : Z) :
  ~ valid_period m max_lag -> InvalidArgument (check_period m max_lag).
Proof.
  unfold InvalidArgument.
  destruct m as [[z | x] |]; simpl; intros Hv.
  - destruct (Z.ltb_spec z 2); simpl; [eexists; reflexivity |].
    unfold Z.gtb. destruct (Z.compare_spec z max_lag);
      try (exfalso; apply Hv; lia).
    eexists; reflexivity.
  - rewrite orb_true_r. eexists; reflexivity.
  - exfalso. apply Hv. exact I.
Qed.

Lemma check_period_inv (m : option PyNumber) (max_lag : Z) (mz : option Z) :
  check_period m max_lag = Ok mz -> valid_period m max_lag /\ mz = period_of m.
Proof.
  intros Hok.
  assert (Hv : valid_period m max_lag).
  { destruct m as [[z | x] |]; simpl in *; [| | exact I].
    - destruct (Z.ltb_spec z 2); simpl in Hok; [discriminate |].
      unfold Z.gtb in Hok. destruct (Z.compare_spec z max_lag); try discriminate; lia.
    - rewrite orb_true_r in Hok. discriminate. }
  split; [exact Hv |].
  rewrite (check_period_valid _ _ Hv) in Hok. congruence.
Qed.

(** ** The significance loop *)

Lemma significance_loop_first (r : list R) (band : R) (n : Z)
    (pre : list Z) (c : Z) (post : list Z) :
  Forall (insignificant r band n) pre ->
  significant r band n c ->
  significance_loop r band n (pre ++ c :: post) = Ok (true, c).
Proof.
  intros Hpre (stat & x & Hstat & Hx & Hgt).
  induction Hpre as [|c' pre (stat' & x' & Hstat' & Hx' & Hle) _ IH]; simpl.
  - rewrite Hstat. cbn [bind]. rewrite Hx. cbn [bind].
    rewrite (proj2 (Rgtb_true _ _) Hgt). reflexivity.
  - rewrite Hstat'. cbn [bind]. rewrite Hx'. cbn [bind].
    rewrite (proj2 (Rgtb_false _ _) Hle). exact IH.
Qed.

Lemma significance_loop_none (r : list R) (band : R) (n : Z) (candidates : list Z) :
  Forall (insignificant r band n) candidates ->
  significance_loop r band n candidates = Ok (false, 0%Z).
Proof.
  induction 1 as [|c cs (stat & x & Hstat & Hx & Hle) _ IH]; simpl.
  - reflexivity.
  - rewrite Hstat. cbn [bind]. rewrite Hx. cbn [bind].
    rewrite (proj2 (Rgtb_false _ _) Hle). exact IH.
Qed.

Lemma significance_loop_result (r : list R) (band : R) (n : Z)
    (candidates : list Z) (b : bool) (p : Z) :
  significance_loop r band n candidates = Ok (b, p) ->
  (b = false /\ p = 0%Z) \/ (b = true /\ In p candidates).
Proof.
  induction candidates as [|c cs IH]; simpl; intros Hres.
  - left. split; congruence.
  - destruct (_bartlett_formula r (c - 1) n) as [stat |]; [| discriminate].
    cbn [bind] in Hres.
    destruct (Py.getitem r (c - 1)) as [x |]; [| discriminate].
    cbn [bind] in Hres.
    destruct (Rgtb x (stat * band)).
    + right. injection Hres as <- <-. split; [reflexivity | left; reflexivity].
    + destruct (IH Hres) as [Hl | [Hb Hin]]; [left; exact Hl |].
      right. split; [exact Hb | right; exact Hin].
Qed.

Lemma getitem_in_range (r : list R) (i : Z) :
  (0 <= i < Z.of_nat (List.length r))%Z ->
  Py.getitem r i = Ok (nth (Z.to_nat i) r 0).
Proof.
  intros Hi. unfold Py.getitem.
  destruct (Z.ltb_spec i 0); [lia |].
  destruct (Z.leb_spec 0 i); [| lia].
  destruct (Z.ltb_spec i (Z.of_nat (List.length r))); [| lia].
  reflexivity.
Qed.

Lemma bartlett_total (r : list R) (m n : Z) :
  (0 < n)%Z -> exists stat, _bartlett_formula r m n = Ok stat.
Proof.
  intros Hn. destruct (Z.eq_dec m 1) as [-> | Hm].
  - eexists. apply bartlett_order_1. exact Hn.
  - eexists. apply bartlett_general; assumption.
Qed.

(** On a non-empty sample, a candidate whose index is inside the vector is
    examined without raising: it passes or it fails. *)
Lemma candidate_examined (r : list R) (band : R) (n c : Z) :
  (0 < n)%Z -> (0 <= c - 1 < Z.of_nat (List.length r))%Z ->
  significant r band n c \/ insignificant r band n c.
Proof.
  intros Hn Hc.
  destruct (bartlett_total r (c - 1) n Hn) as [stat Hstat].
  pose proof (getitem_in_range r (c - 1) Hc) as Hx.
  destruct (Rgt_dec (nth (Z.to_nat (c - 1)) r 0) (stat * band)) as [Hgt | Hle].
  - left. exists stat, (nth (Z.to_nat (c - 1)) r 0). auto.
  - right. exists stat, (nth (Z.to_nat (c - 1)) r 0). auto.
Qed.

Lemma slice_from1_length {A : Type} (r : list A) :
  List.length (Py.slice_from1 r) = (List.length r - 1)%nat.
Proof. unfold Py.slice_from1. apply length_skipn. Qed.

(** ** The seasonality tester *)

Section SeasonalityTester.

Variable acf : list R -> Z -> result (list R).
Variable norm_ppf : R -> R.

(** Past the guards, the constant-series exit and the empty-candidates exit,
    what remains is the membership test and the significance loop. *)
Lemma check_seasonality_candidates (ts : TimeSeries) (m : option PyNumber)
    (max_lag : Z) (alpha : R) (r0 : list R) :
  is_univariate ts = true ->
  valid_period m max_lag ->
  n_unique (values ts) <> 1%nat ->
  acf (values ts) max_lag = Ok r0 ->
  argrelmax r0 <> [] ->
  check_seasonality acf norm_ppf ts m max_lag alpha =
  match period_of m with
  | Some z =>
      if negb (mem z (argrelmax r0)) then Ok (false, z)
      else significance norm_ppf ts r0 alpha [z]
  | None => significance norm_ppf ts r0 alpha (argrelmax r0)
  end.
Proof.
  intros Hu Hv Hn Hacf Hc. unfold check_seasonality, _assert_univariate.
  rewrite Hu. cbn [bind]. rewrite (check_period_valid _ _ Hv). cbn [bind].
  destruct (Nat.eqb_spec (n_unique (values ts)) 1); [contradiction |].
  rewrite Hacf. cbn [bind].
  destruct (argrelmax r0) eqn:E; [contradiction |].
  reflexivity.
Qed.

(** C1: past the early exits, with [r] the autocorrelation vector without
    lag 0 and [upper_bound = mean(r) + z(1 - alpha/2) * var(r)], the
    candidates are in ascending order; the first candidate [c] with
    [r[c-1] > bartlett(r, c-1, len(ts)) * upper_bound] makes the call return
    [(True, c)] whatever follows it; when every candidate fails the call
    returns [(False, 0)]; and on a non-empty series every candidate either
    passes or fails, so one of the two cases applies. *)
Theorem check_seasonality_first_significant (ts : TimeSeries)
    (m : option PyNumber) (max_lag : Z) (alpha : R) (r0 : list R) :
  is_univariate ts = true ->
  valid_period m max_lag ->
  n_unique (values ts) <> 1%nat ->
  acf (values ts) max_lag = Ok r0 ->
  argrelmax r0 <> [] ->
  (forall z, period_of m = Some z -> In z (argrelmax r0)) ->
  let r := Py.slice_from1 r0 in
  let upper_bound := Py.mean r + norm_ppf (1 - alpha / 2) * Py.var r in
  let candidates :=
    match period_of m with
    | Some z => [z]
    | None => argrelmax r0
    end in
  StronglySorted Z.lt candidates /\
  (forall pre c post,
      candidates = pre ++ c :: post ->
      Forall (insignificant r upper_bound (len ts)) pre ->
      significant r upper_bound (len ts) c ->
      check_seasonality acf norm_ppf ts m max_lag alpha = Ok (true, c)) /\
  (Forall (insignificant r upper_bound (len ts)) candidates ->
   check_seasonality acf norm_ppf ts m max_lag alpha = Ok (false, 0%Z)) /\
  ((0 < len ts)%Z ->
   Forall (fun c => significant r upper_bound (len ts) c \/
                    insignificant r upper_bound (len ts) c) candidates).
Proof.
  intros Hu Hv Hn Hacf Hc Hm r upper_bound candidates.
  assert (Hrun : check_seasonality acf norm_ppf ts m max_lag alpha =
                 significance_loop r upper_bound (len ts) candidates).
  { rewrite (check_seasonality_candidates ts m max_lag alpha r0) by assumption.
    subst candidates. destruct (period_of m) as [z |]; [| reflexivity].
    rewrite (proj2 (mem_In z (argrelmax r0)) (Hm z eq_refl)). reflexivity. }
  assert (Hin : forall c, In c candidates -> In c (argrelmax r0)).
  { subst candidates. destruct (period_of m) as [z |]; [| auto].
    intros c [<- | []]. apply Hm. reflexivity. }
  split; [| split; [| split]].
  - subst candidates. destruct (period_of m) as [z |].
    + repeat constructor.
    + apply argrelmax_sorted.
  - intros pre c post Hsplit Hpre Hsig. rewrite Hrun, Hsplit.
    apply significance_loop_first; assumption.
  - intros Hall. rewrite Hrun. apply significance_loop_none. exact Hall.
  - intros Hlen. rewrite Forall_forall. intros c Hc'.
    apply candidate_examined; [exact Hlen |].
    apply Hin, argrelmax_bounds in Hc'.
    subst r. rewrite slice_from1_length. lia.
Qed.

(** C2, as amended: for a non-constant series whose autocorrelation vector
    has at least one local maximum, a requested period that satisfies the
    preconditions and is not among the local maxima yields
    [(False, period)]. *)
Theorem check_seasonality_not_candidate (ts : TimeSeries) (z : Z)
    (max_lag : Z) (alpha : R) (r0 : list R) :
  is_univariate ts = true ->
  (2 <= z <= max_lag)%Z ->
  n_unique (values ts) <> 1%nat ->
  acf (values ts) max_lag = Ok r0 ->
  argrelmax r0 <> [] ->
  ~ In z (argrelmax r0) ->
  check_seasonality acf norm_ppf ts (Some (PyInt z)) max_lag alpha = Ok (false, z).
Proof.
  intros Hu Hz Hn Hacf Hc Hnotin.
  rewrite (check_seasonality_candidates ts (Some (PyInt z)) max_lag alpha r0)
    by assumption.
  simpl period_of. cbv iota.
  destruct (mem z (argrelmax r0)) eqn:Hmem; [| reflexivity].
  apply mem_In in Hmem. contradiction.
Qed.

(** C5: on a constant series (exactly one distinct value) the call returns
    [(False, 0)] for every requested period that satisfies the
    preconditions, and for every autocorrelation collaborator: the result
    does not depend on it. *)
Theorem check_seasonality_constant (ts : TimeSeries) (m : option PyNumber)
    (max_lag : Z) (alpha : R) :
  is_univariate ts = true ->
  valid_period m max_lag ->
  n_unique (values ts) = 1%nat ->
  check_seasonality acf norm_ppf ts m max_lag alpha = Ok (false, 0%Z).
Proof.
  intros Hu Hv Hn. unfold check_seasonality, _assert_univariate.
  rewrite Hu. cbn [bind]. rewrite (check_period_valid _ _ Hv). cbn [bind].
  rewrite Hn. reflexivity.
Qed.

(** C6: a requested period that is not an int, is less than 2 or exceeds
    [max_lag] makes the call raise [ValueError], whatever the series and
    whatever the collaborators: nothing is computed and no verdict is
    returned. *)
Theorem check_seasonality_rejects_period (ts : TimeSeries) (v : PyNumber)
    (max_lag : Z) (alpha : R) :
  invalid_period v max_lag ->
  InvalidArgument (check_seasonality acf norm_ppf ts (Some v) max_lag alpha).
Proof.
  intros Hinv. unfold check_seasonality, _assert_univariate.
  destruct (is_univariate ts); cbn [bind]; [| eexists; reflexivity].
  destruct (check_period_invalid (Some v) max_lag) as [msg Hmsg].
  - destruct v as [z | x]; simpl in *; [lia | auto].
  - rewrite Hmsg. cbn [bind]. exists msg. reflexivity.
Qed.

(** C8: when the autocorrelation collaborator returns at most
    [max_lag + 1] values (lags [0..max_lag]), every verdict the call returns
    carries the period 0 or a period in [1, max_lag]. *)
Theorem check_seasonality_period_range (ts : TimeSeries) (m : option PyNumber)
    (max_lag : Z) (alpha : R) (b : bool) (p : Z) :
  (forall r0, acf (values ts) max_lag = Ok r0 ->
              (Z.of_nat (List.length r0) <= max_lag + 1)%Z) ->
  check_seasonality acf norm_ppf ts m max_lag alpha = Ok (b, p) ->
  p = 0%Z \/ (1 <= p <= max_lag)%Z.
Proof.
  intros Hlen. unfold check_seasonality, _assert_univariate.
  destruct (is_univariate ts); cbn [bind]; [| discriminate].
  destruct (check_period m max_lag) as [mz |] eqn:Hper; cbn [bind]; [| discriminate].
  apply check_period_inv in Hper. destruct Hper as [Hv ->].
  destruct (Nat.eqb (n_unique (values ts)) 1).
  { intros Hres. injection Hres as _ <-. left. reflexivity. }
  destruct (acf (values ts) max_lag) as [r0 |] eqn:Hacf; cbn [bind]; [| discriminate].
  specialize (Hlen r0 eq_refl).
  destruct (Nat.eqb (List.length (argrelmax r0)) 0).
  { intros Hres. injection Hres as _ <-. left. reflexivity. }
  assert (Hcand : forall c, In c (argrelmax r0) -> (1 <= c <= max_lag)%Z).
  { intros c Hc. apply argrelmax_bounds in Hc. lia. }
  destruct m as [[z | x] |]; simpl in Hv; simpl period_of; cbv iota.
  - destruct (mem z (argrelmax r0)); simpl negb; cbv iota.
    + unfold significance. intros Hres.
      apply significance_loop_result in Hres.
      destruct Hres as [[_ ->] | [_ [<- | []]]]; [left; reflexivity | right; lia].
    + intros Hres. injection Hres as _ <-. right. lia.
  - contradiction.
  - unfold significance. intros Hres.
    apply significance_loop_result in Hres.
    destruct Hres as [[_ ->] | [_ Hin]]; [left; reflexivity | right; auto].
Qed.

End SeasonalityTester.

(** ** Decomposition and removal *)

Lemma map2_sub_add (c d : list R) :
  List.length c = List.length d -> map2 Rplus (map2 Rminus c d) d = c.
Proof.
  revert d. induction c as [|x c IH]; intros [|y d] Hlen; simpl in *;
    try discriminate; [reflexivity |].
  f_equal; [lra | apply IH; lia].
Qed.

Lemma map2_div_mul (c d : list R) :
  List.length c = List.length d -> Forall (fun y => y <> 0) d ->
  map2 Rmult (map2 Rdiv c d) d = c.
Proof.
  revert d. induction c as [|x c IH]; intros [|y d] Hlen Hnz; simpl in *;
    try discriminate; [reflexivity |].
  inversion Hnz as [|? ? Hy Hd]; subst.
  f_equal; [field; exact Hy | apply IH; [lia | exact Hd]].
Qed.

Lemma columns_sub_add (cs ds : list (list R)) :
  Forall2 (fun c d => List.length c = List.length d) cs ds ->
  map2 (map2 Rplus) (map2 (map2 Rminus) cs ds) ds = cs.
Proof.
  induction 1 as [|c d cs ds Hlen _ IH]; simpl; [reflexivity |].
  rewrite map2_sub_add by exact Hlen. rewrite IH. reflexivity.
Qed.

Lemma columns_div_mul (cs ds : list (list R)) :
  Forall2 (fun c d => List.length c = List.length d) cs ds ->
  Forall (Forall (fun y => y <> 0)) ds ->
  map2 (map2 Rmult) (map2 (map2 Rdiv) cs ds) ds = cs.
Proof.
  induction 1 as [|c d cs ds Hlen _ IH]; simpl; intros Hnz; [reflexivity |].
  inversion Hnz as [|? ? Hd Hds]; subst.
  rewrite map2_div_mul by assumption. rewrite IH by exact Hds. reflexivity.
Qed.

Lemma remove_from_series_additive (ts other : TimeSeries) (model : Model) :
  is_univariate ts = true -> is_ADDITIVE model ->
  remove_from_series ts other model = Ok (ts_sub ts other).
Proof.
  intros Hu [-> | ->]; unfold remove_from_series, _assert_univariate;
    rewrite Hu; reflexivity.
Qed.

Lemma remove_from_series_multiplicative (ts other : TimeSeries) (model : Model) :
  is_univariate ts = true -> is_MULTIPLICATIVE model ->
  remove_from_series ts other model = Ok (ts_truediv ts other).
Proof.
  intros Hu [-> | ->]; unfold remove_from_series, _assert_univariate;
    rewrite Hu; reflexivity.
Qed.

Lemma values_binop_univariate (f : R -> R -> R) (ts other : TimeSeries) :
  is_univariate ts = true -> is_univariate other = true ->
  values (ts_binop f ts other) = map2 f (values ts) (values other).
Proof.
  unfold is_univariate, values, ts_binop.
  destruct ts as [ti [|c [|c' cs]]], other as [to [|d [|d' ds]]]; simpl;
    try discriminate.
  intros _ _. rewrite !app_nil_r. reflexivity.
Qed.

(** C3: on a univariate series, a model tagged ADDITIVE yields the series
    of elementwise differences, a model tagged MULTIPLICATIVE the series of
    elementwise quotients; any other model makes the call raise
    [ValueError] and return nothing, whatever the series. *)
Theorem remove_from_series_spec (ts other : TimeSeries) (model : Model) :
  (is_univariate ts = true -> is_ADDITIVE model ->
   remove_from_series ts other model =
   Ok (mkTimeSeries (time_index ts) (map2 (map2 Rminus) (columns ts) (columns other))) /\
   (is_univariate other = true ->
    forall d, remove_from_series ts other model = Ok d ->
              values d = map2 Rminus (values ts) (values other))) /\
  (is_univariate ts = true -> is_MULTIPLICATIVE model ->
   remove_from_series ts other model =
   Ok (mkTimeSeries (time_index ts) (map2 (map2 Rdiv) (columns ts) (columns other))) /\
   (is_univariate other = true ->
    forall d, remove_from_series ts other model = Ok d ->
              values d = map2 Rdiv (values ts) (values other))) /\
  (~ is_ADDITIVE model -> ~ is_MULTIPLICATIVE model ->
   InvalidArgument (remove_from_series ts other model)).
Proof.
  split; [| split].
  - intros Hu Ha. rewrite (remove_from_series_additive ts other model Hu Ha).
    split; [reflexivity |].
    intros Ho d Hd. injection Hd as <-.
    apply values_binop_univariate; assumption.
  - intros Hu Hm. rewrite (remove_from_series_multiplicative ts other model Hu Hm).
    split; [reflexivity |].
    intros Ho d Hd. injection Hd as <-.
    apply values_binop_univariate; assumption.
  - intros Ha Hm. unfold InvalidArgument, remove_from_series, _assert_univariate.
    destruct (is_univariate ts); cbn [bind]; [| eexists; reflexivity].
    destruct model; cbn;
      try (eexists; reflexivity);
      solve [exfalso; apply Ha; unfold is_ADDITIVE; auto
            | exfalso; apply Hm; unfold is_MULTIPLICATIVE; auto].
Qed.

(** C9: for a univariate series and an aligned component, removing the
    component under an ADDITIVE model and adding it back gives the series
    again; removing it under a MULTIPLICATIVE model and multiplying it back
    gives the series again when the component is nowhere zero.  Equalities
    are over the reals. *)
Theorem remove_then_restore (ts other : TimeSeries) (model : Model) :
  is_univariate ts = true ->
  aligned ts other ->
  (is_ADDITIVE model ->
   exists d, remove_from_series ts other model = Ok d /\ ts_add d other = ts) /\
  (is_MULTIPLICATIVE model ->
   Forall (Forall (fun y => y <> 0)) (columns other) ->
   exists d, remove_from_series ts other model = Ok d /\ ts_mul d other = ts).
Proof.
  intros Hu [_ Hcols]. split.
  - intros Ha. exists (ts_sub ts other). split.
    + apply remove_from_series_additive; assumption.
    + destruct ts as [ti cs]. unfold ts_add, ts_sub, ts_binop. simpl in *.
      f_equal. apply columns_sub_add. exact Hcols.
  - intros Hm Hnz. exists (ts_truediv ts other). split.
    + apply remove_from_series_multiplicative; assumption.
    + destruct ts as [ti cs]. unfold ts_mul, ts_truediv, ts_binop. simpl in *.
      f_equal. apply columns_div_mul; assumption.
Qed.

Section Decomposition.

Variable seasonal_decompose :
  list Z -> list R -> option Z -> option string -> result (list R * list R).

Lemma extract_accepts (ts : TimeSeries) (freq : option Z) (model : Model) :
  is_univariate ts = true ->
  is_ADDITIVE model \/ is_MULTIPLICATIVE model ->
  extract_trend_and_seasonality seasonal_decompose ts freq model =
  (decomp <- seasonal_decompose (time_index ts) (values ts) freq (value model) ;;
   Ok (from_times_and_values (time_index ts) (snd decomp),
       from_times_and_values (time_index ts) (fst decomp))).
Proof.
  intros Hu Hm. unfold extract_trend_and_seasonality, _assert_univariate.
  rewrite Hu.
  destruct Hm as [[-> | ->] | [-> | ->]]; reflexivity.
Qed.

Lemma extract_rejects (ts : TimeSeries) (freq : option Z) (model : Model) :
  ~ is_ADDITIVE model -> ~ is_MULTIPLICATIVE model ->
  InvalidArgument (extract_trend_and_seasonality seasonal_decompose ts freq model).
Proof.
  intros Ha Hm.
  unfold InvalidArgument, extract_trend_and_seasonality, _assert_univariate.
  destruct (is_univariate ts); cbn [bind]; [| eexists; reflexivity].
  destruct model; cbn;
    try (eexists; reflexivity);
    solve [exfalso; apply Ha; unfold is_ADDITIVE; auto
          | exfalso; apply Hm; unfold is_MULTIPLICATIVE; auto].
Qed.

Lemma remove_seasonality_rejects (ts : TimeSeries) (freq : option Z) (model : Model) :
  ~ is_ADDITIVE model -> ~ is_MULTIPLICATIVE model ->
  InvalidArgument (remove_seasonality seasonal_decompose ts freq model).
Proof.
  intros Ha Hm.
  unfold InvalidArgument, remove_seasonality.
  destruct (extract_rejects ts freq model Ha Hm) as [msg Hmsg].
  unfold _assert_univariate in *.
  destruct (is_univariate ts) eqn:Hu; cbn [bind]; [| eexists; reflexivity].
  destruct (is_SeasonalityMode_NONE model); cbn [raise_if_not negb bind];
    [eexists; reflexivity |].
  rewrite Hmsg. cbn [bind]. exists msg. reflexivity.
Qed.

(** C7: with the sentinel NONE as model, [extract_trend_and_seasonality]
    and [remove_seasonality] raise [ValueError] for every series and every
    decomposition collaborator, which is therefore not consulted.  More
    generally every model other than ADDITIVE and MULTIPLICATIVE is
    rejected that way, and on a univariate series ADDITIVE and
    MULTIPLICATIVE pass the guards: the extraction is then the
    collaborator's decomposition over the series' time index. *)
Theorem decomposition_rejects_NONE (ts : TimeSeries) (freq : option Z) :
  InvalidArgument
    (extract_trend_and_seasonality seasonal_decompose ts freq SeasonalityMode_NONE) /\
  InvalidArgument
    (remove_seasonality seasonal_decompose ts freq SeasonalityMode_NONE) /\
  (forall model,
      ~ is_ADDITIVE model -> ~ is_MULTIPLICATIVE model ->
      InvalidArgument (extract_trend_and_seasonality seasonal_decompose ts freq model) /\
      InvalidArgument (remove_seasonality seasonal_decompose ts freq model)) /\
  (forall model,
      is_univariate ts = true ->
      is_ADDITIVE model \/ is_MULTIPLICATIVE model ->
      extract_trend_and_seasonality seasonal_decompose ts freq model =
      (decomp <- seasonal_decompose (time_index ts) (values ts) freq (value model) ;;
       Ok (from_times_and_values (time_index ts) (snd decomp),
           from_times_and_values (time_index ts) (fst decomp))) /\
      remove_seasonality seasonal_decompose ts freq model =
      (ts_pair <- extract_trend_and_seasonality seasonal_decompose ts freq model ;;
       remove_from_series ts (snd ts_pair) model)).
Proof.
  assert (Ha : ~ is_ADDITIVE SeasonalityMode_NONE)
    by (intros [H | H]; discriminate).
  assert (Hm : ~ is_MULTIPLICATIVE SeasonalityMode_NONE)
    by (intros [H | H]; discriminate).
  split; [apply extract_rejects; assumption |].
  split; [apply remove_seasonality_rejects; assumption |].
  split.
  - intros model Ha' Hm'. split.
    + apply extract_rejects; assumption.
    + apply remove_seasonality_rejects; assumption.
  - intros model Hu Hmodel. split.
    + apply extract_accepts; assumption.
    + unfold remove_seasonality, _assert_univariate. rewrite Hu. cbn [bind].
      destruct Hmodel as [[-> | ->] | [-> | ->]]; reflexivity.
Qed.

End Decomposition.

(** ** Evaluation on the sample series *)

Ltac eval_indices :=
  repeat match goal with
  | |- context [Z.to_nat ?z] =>
      let v := eval compute in (Z.to_nat z) in progress change (Z.to_nat z) with v
  end.

Ltac list_eval :=
  eval_indices;
  cbn [map map2 skipn firstn seq fold_left List.length List.concat app Nat.min
       nth filter values columns time_index from_times_and_values
       ts_alternating ts_trend ts_constant ts_component].

Ltac decide_Rgtb :=
  repeat match goal with
  | |- context [Rgtb ?x ?y] =>
      first [ replace (Rgtb x y) with true by (symmetry; apply Rgtb_true; lra)
            | replace (Rgtb x y) with false by (symmetry; apply Rgtb_false; lra) ]
  end.

Ltac acf_eval :=
  unfold acf_direct; list_eval;
  unfold acovf, Py.sum, Py.mean; list_eval; cbn [INR];
  f_equal; repeat (apply (f_equal2 (@cons R)); [field |]); reflexivity.

Ltac argrelmax_eval :=
  unfold argrelmax; list_eval; unfold take_clip; list_eval;
  simpl Z.of_nat; decide_Rgtb; reflexivity.

Lemma acf_direct_alternating :
  acf_direct (values ts_alternating) 3 = Ok [1; -3 / 4; 1 / 2; -1 / 4].
Proof. list_eval. acf_eval. Qed.

Lemma acf_direct_trend :
  acf_direct (values ts_trend) 2 = Ok [1; 0; -1 / 2].
Proof. list_eval. acf_eval. Qed.

Lemma argrelmax_alternating : argrelmax [1; -3 / 4; 1 / 2; -1 / 4] = [2%Z].
Proof. argrelmax_eval. Qed.

Lemma argrelmax_trend : argrelmax [1; 0; -1 / 2] = [].
Proof. argrelmax_eval. Qed.

Lemma acf_direct_length (x : list R) (nlags : Z) (r0 : list R) :
  (0 <= nlags + 1)%Z ->
  acf_direct x nlags = Ok r0 ->
  (Z.of_nat (List.length r0) <= nlags + 1)%Z.
Proof.
  intros Hn Hacf. unfold acf_direct in Hacf. injection Hacf as <-.
  rewrite length_map, length_seq. lia.
Qed.

(** A series with two different values is not constant; a non-empty series
    whose values are all equal is. *)
Lemma n_unique_two (vals : list R) (a b : R) :
  In a vals -> In b vals -> a <> b -> n_unique vals <> 1%nat.
Proof.
  unfold n_unique. intros Ha Hb Hab Hone.
  apply (nodup_In Req_dec_T) in Ha. apply (nodup_In Req_dec_T) in Hb.
  destruct (nodup Req_dec_T vals) as [|c [|c' rest]]; simpl in *; try discriminate.
  destruct Ha as [-> | []], Hb as [-> | []]. apply Hab. reflexivity.
Qed.

Lemma n_unique_constant (x : R) (vals : list R) :
  Forall (eq x) vals -> n_unique (x :: vals) = 1%nat.
Proof.
  unfold n_unique. intros Hall.
  assert (Hin : In x (nodup Req_dec_T (x :: vals))).
  { apply nodup_In. left. reflexivity. }
  assert (Heq : forall y, In y (nodup Req_dec_T (x :: vals)) -> y = x).
  { intros y Hy. apply nodup_In in Hy. destruct Hy as [-> | Hy]; [reflexivity |].
    rewrite Forall_forall in Hall. symmetry. apply Hall. exact Hy. }
  pose proof (NoDup_nodup Req_dec_T (x :: vals)) as Hnd.
  destruct (nodup Req_dec_T (x :: vals)) as [|c [|c' rest]].
  - destruct Hin.
  - reflexivity.
  - exfalso. inversion Hnd as [|? ? Hnotin _]; subst. apply Hnotin.
    rewrite (Heq c), (Heq c'); simpl; auto.
Qed.

Lemma n_unique_alternating : n_unique (values ts_alternating) <> 1%nat.
Proof.
  apply (n_unique_two _ 1 2); simpl; auto. lra.
Qed.

Lemma n_unique_trend : n_unique (values ts_trend) <> 1%nat.
Proof.
  apply (n_unique_two _ 1 2); simpl; auto. lra.
Qed.

Lemma n_unique_ts_constant : n_unique (values ts_constant) = 1%nat.
Proof.
  simpl values. apply n_unique_constant. repeat constructor.
Qed.

Lemma band_upper_alternating :
  Py.mean [-3 / 4; 1 / 2; -1 / 4] +
  ppf_196 (1 - 5 / 100 / 2) * Py.var [-3 / 4; 1 / 2; -1 / 4] = 631 / 1800.
Proof.
  unfold ppf_196, Py.var, Py.mean. list_eval. cbn [INR]. field.
Qed.

Lemma sqrt_quarter_bounds : 0 <= sqrt (1 / IZR 4) <= 1.
Proof.
  split; [apply sqrt_pos |].
  rewrite <- sqrt_1 at 2. apply sqrt_le_1_alt. lra.
Qed.

(** Lag 2 of the alternating series passes the test. *)
Lemma significant_alternating :
  significant [-3 / 4; 1 / 2; -1 / 4] (631 / 1800) 4 2.
Proof.
  exists (sqrt (1 / IZR 4)), (1 / 2). split; [| split].
  - apply bartlett_order_1. lia.
  - reflexivity.
  - pose proof sqrt_quarter_bounds. nra.
Qed.

Lemma check_seasonality_no_candidates (acf : list R -> Z -> result (list R))
    (norm_ppf : R -> R) (ts : TimeSeries) (m : option PyNumber) (max_lag : Z)
    (alpha : R) (r0 : list R) :
  is_univariate ts = true ->
  valid_period m max_lag ->
  n_unique (values ts) <> 1%nat ->
  acf (values ts) max_lag = Ok r0 ->
  argrelmax r0 = [] ->
  check_seasonality acf norm_ppf ts m max_lag alpha = Ok (false, 0%Z).
Proof.
  intros Hu Hv Hn Hacf Hc. unfold check_seasonality, _assert_univariate.
  rewrite Hu. cbn [bind]. rewrite (check_period_valid _ _ Hv). cbn [bind].
  destruct (Nat.eqb_spec (n_unique (values ts)) 1); [contradiction |].
  rewrite Hacf. cbn [bind]. rewrite Hc. reflexivity.
Qed.

Lemma candidates_alternating : argrelmax [1; -3 / 4; 1 / 2; -1 / 4] <> [].
Proof. rewrite argrelmax_alternating. discriminate. Qed.

(** The alternating series 1, 2, 1, 2 is found seasonal with period 2. *)
Lemma check_alternating :
  check_seasonality acf_direct ppf_196 ts_alternating None 3 (5 / 100) =
  Ok (true, 2%Z).
Proof.
  rewrite (check_seasonality_candidates acf_direct ppf_196 ts_alternating None 3
             (5 / 100) [1; -3 / 4; 1 / 2; -1 / 4]
             eq_refl I n_unique_alternating acf_direct_alternating
             candidates_alternating).
  simpl period_of. cbv iota. rewrite argrelmax_alternating.
  unfold significance, band_upper.
  change (Py.slice_from1 [1; -3 / 4; 1 / 2; -1 / 4]) with [-3 / 4; 1 / 2; -1 / 4].
  rewrite band_upper_alternating.
  change (len ts_alternating) with 4%Z.
  apply (significance_loop_first _ _ _ [] 2%Z []);
    [constructor | apply significant_alternating].
Qed.

(** ** Instances of the theorems on the sample series *)

Lemma check_seasonality_first_significant_witness :
  check_seasonality acf_direct ppf_196 ts_alternating None 3 (5 / 100) =
  Ok (true, 2%Z).
Proof.
  pose proof (check_seasonality_first_significant acf_direct ppf_196
                ts_alternating None 3 (5 / 100) [1; -3 / 4; 1 / 2; -1 / 4]
                eq_refl I n_unique_alternating acf_direct_alternating
                candidates_alternating) as H.
  cbv zeta in H.
  destruct H as (_ & Hfirst & _); [intros z Hz; discriminate Hz |].
  apply (Hfirst [] 2%Z []).
  - simpl period_of. cbv iota. apply argrelmax_alternating.
  - constructor.
  - change (Py.slice_from1 [1; -3 / 4; 1 / 2; -1 / 4])
      with [-3 / 4; 1 / 2; -1 / 4].
    rewrite band_upper_alternating.
    apply significant_alternating.
Defined.

Lemma check_seasonality_not_candidate_witness :
  check_seasonality acf_direct ppf_196 ts_alternating (Some (PyInt 3)) 3 (5 / 100) =
  Ok (false, 3%Z).
Proof.
  apply (check_seasonality_not_candidate acf_direct ppf_196 ts_alternating 3 3
           (5 / 100) [1; -3 / 4; 1 / 2; -1 / 4]).
  - reflexivity.
  - lia.
  - apply n_unique_alternating.
  - apply acf_direct_alternating.
  - apply candidates_alternating.
  - rewrite argrelmax_alternating. intros [H | []]. discriminate H.
Defined.

(** C2 as stated fails: the series 1, 2, 3 is not constant, the period 2
    satisfies the preconditions with [max_lag = 2], and 2 is not a local
    maximum of the autocorrelation vector [1; 0; -1/2], which has none; the
    call returns [(False, 0)], not [(False, 2)]. *)
Lemma check_seasonality_not_candidate_counterexample :
  is_univariate ts_trend = true /\
  valid_period (Some (PyInt 2)) 2 /\
  acf_direct (values ts_trend) 2 = Ok [1; 0; -1 / 2] /\
  ~ In 2%Z (argrelmax [1; 0; -1 / 2]) /\
  check_seasonality acf_direct ppf_196 ts_trend (Some (PyInt 2)) 2 (5 / 100) =
  Ok (false, 0%Z) /\
  check_seasonality acf_direct ppf_196 ts_trend (Some (PyInt 2)) 2 (5 / 100) <>
  Ok (false, 2%Z).
Proof.
  assert (Hrun : check_seasonality acf_direct ppf_196 ts_trend (Some (PyInt 2)) 2
                   (5 / 100) = Ok (false, 0%Z)).
  { apply (check_seasonality_no_candidates _ _ _ _ _ _ [1; 0; -1 / 2]).
    - reflexivity.
    - simpl. lia.
    - apply n_unique_trend.
    - apply acf_direct_trend.
    - apply argrelmax_trend. }
  split; [reflexivity |].
  split; [simpl; lia |].
  split; [apply acf_direct_trend |].
  split; [rewrite argrelmax_trend; intros [] |].
  split; [exact Hrun |].
  rewrite Hrun. intros Heq. discriminate Heq.
Qed.

Lemma check_seasonality_constant_witness :
  check_seasonality acf_direct ppf_196 ts_constant (Some (PyInt 2)) 24 (5 / 100) =
  Ok (false, 0%Z) /\
  check_seasonality acf_unavailable ppf_196 ts_constant None 24 (5 / 100) =
  Ok (false, 0%Z).
Proof.
  split; apply check_seasonality_constant;
    solve [reflexivity | simpl; lia | exact I | apply n_unique_ts_constant].
Defined.

Lemma check_seasonality_rejects_period_witness :
  InvalidArgument
    (check_seasonality acf_direct ppf_196 ts_alternating (Some (PyInt 1)) 24 (5 / 100)) /\
  InvalidArgument
    (check_seasonality acf_direct ppf_196 ts_alternating (Some (PyInt 25)) 24 (5 / 100)) /\
  InvalidArgument
    (check_seasonality acf_direct ppf_196 ts_alternating (Some (PyFloat (5 / 2))) 24
       (5 / 100)) /\
  InvalidArgument
    (check_seasonality acf_unavailable ppf_196 ts_constant (Some (PyInt 1)) 24
       (5 / 100)).
Proof.
  split; [| split; [| split]]; apply check_seasonality_rejects_period; simpl.
  - left. lia.
  - right. lia.
  - exact I.
  - left. lia.
Defined.

Lemma check_seasonality_period_range_witness :
  check_seasonality acf_direct ppf_196 ts_alternating None 3 (5 / 100) =
  Ok (true, 2%Z) /\
  (2 = 0 \/ 1 <= 2 <= 3)%Z.
Proof.
  split; [apply check_alternating |].
  apply (check_seasonality_period_range acf_direct ppf_196 ts_alternating None 3
           (5 / 100) true 2%Z).
  - intros r0 Hacf. apply (acf_direct_length (values ts_alternating) 3 r0); [lia | exact Hacf].
  - apply check_alternating.
Defined.

Lemma remove_from_series_spec_witness :
  remove_from_series ts_alternating ts_component ModelMode_ADDITIVE =
  Ok (from_times_and_values [0; 1; 2; 3]%Z [1 - 1 / 2; 2 - 2; 1 - 1 / 2; 2 - 2]) /\
  remove_from_series ts_alternating ts_component SeasonalityMode_MULTIPLICATIVE =
  Ok (from_times_and_values [0; 1; 2; 3]%Z
        [1 / (1 / 2); 2 / 2; 1 / (1 / 2); 2 / 2]) /\
  InvalidArgument (remove_from_series ts_alternating ts_component SeasonalityMode_NONE).
Proof.
  split; [| split].
  - destruct (remove_from_series_spec ts_alternating ts_component ModelMode_ADDITIVE)
      as (Hadd & _ & _).
    apply Hadd; [reflexivity | left; reflexivity].
  - destruct (remove_from_series_spec ts_alternating ts_component
                SeasonalityMode_MULTIPLICATIVE) as (_ & Hmul & _).
    apply Hmul; [reflexivity | right; reflexivity].
  - destruct (remove_from_series_spec ts_alternating ts_component SeasonalityMode_NONE)
      as (_ & _ & Hother).
    apply Hother; intros [H | H]; discriminate H.
Defined.

Lemma remove_then_restore_witness :
  (exists d,
      remove_from_series ts_alternating ts_component ModelMode_ADDITIVE = Ok d /\
      ts_add d ts_component = ts_alternating) /\
  (exists d,
      remove_from_series ts_alternating ts_component ModelMode_MULTIPLICATIVE = Ok d /\
      ts_mul d ts_component = ts_alternating).
Proof.
  assert (Hal : aligned ts_alternating ts_component).
  { split; [reflexivity |]. constructor; [reflexivity | constructor]. }
  split.
  - destruct (remove_then_restore ts_alternating ts_component ModelMode_ADDITIVE
                eq_refl Hal) as (Hadd & _).
    apply Hadd. left. reflexivity.
  - destruct (remove_then_restore ts_alternating ts_component
                ModelMode_MULTIPLICATIVE eq_refl Hal) as (_ & Hmul).
    apply Hmul; [left; reflexivity |].
    constructor; [| constructor].
    repeat (constructor; [lra |]). constructor.
Defined.

(** The guards of the decomposition entry points on the sample series: NONE
    is rejected although the collaborator at hand would decompose, and
    ADDITIVE reaches it. *)
Lemma decomposition_rejects_NONE_witness :
  InvalidArgument
    (extract_trend_and_seasonality flat_decompose ts_alternating (Some 2%Z)
       SeasonalityMode_NONE) /\
  InvalidArgument
    (remove_seasonality flat_decompose ts_alternating (Some 2%Z) SeasonalityMode_NONE) /\
  extract_trend_and_seasonality flat_decompose ts_alternating (Some 2%Z)
    SeasonalityMode_ADDITIVE =
  Ok (from_times_and_values [0; 1; 2; 3]%Z [1; 2; 1; 2],
      from_times_and_values [0; 1; 2; 3]%Z [0; 0; 0; 0]).
Proof.
  destruct (decomposition_rejects_NONE flat_decompose ts_alternating (Some 2%Z))
    as (Hextract & Hremove & _ & Haccept).
  split; [exact Hextract |]. split; [exact Hremove |].
  destruct (Haccept SeasonalityMode_ADDITIVE eq_refl) as [Heq _].
  - left. right. reflexivity.
  - rewrite Heq. reflexivity.
Defined.

(** * Further properties *)

(** ** Bartlett's formula: bounds and monotonicity *)

Lemma sum_sq_le_abs (xs ys : list R) :
  Forall2 (fun x y => Rabs x <= Rabs y) xs ys ->
  Py.sum (map (fun x => x ^ 2) xs) <= Py.sum (map (fun x => x ^ 2) ys).
Proof.
  induction 1 as [|x y xs ys Hxy _ IH]; cbn [map].
  - lra.
  - rewrite !sum_cons.
    assert (x ^ 2 <= y ^ 2).
    { rewrite <- (pow2_abs x), <- (pow2_abs y).
      apply pow_incr. split; [apply Rabs_pos | exact Hxy]. }
    lra.
Qed.

Lemma sum_sq_firstn_le (r : list R) (k k' : nat) :
  (k <= k')%nat ->
  Py.sum (map (fun x => x ^ 2) (firstn k r)) <=
  Py.sum (map (fun x => x ^ 2) (firstn k' r)).
Proof.
  revert k k'. induction r as [|x r IH]; intros k k' Hk.
  - rewrite !firstn_nil. lra.
  - destruct k as [|k].
    + cbn [firstn map]. rewrite sum_nil. apply sum_sq_nonneg.
    + destruct k' as [|k']; [lia |].
      cbn [firstn map]. rewrite !sum_cons.
      specialize (IH k k' ltac:(lia)). lra.
Qed.

Lemma sqrt_div_le (a b : R) (n : Z) :
  (0 < n)%Z -> 0 <= a -> a <= b -> sqrt (a / IZR n) <= sqrt (b / IZR n).
Proof.
  intros Hn Ha Hab. apply sqrt_le_1_alt.
  apply Rmult_le_compat_r; [| exact Hab].
  apply Rlt_le, Rinv_0_lt_compat, IZR_lt. exact Hn.
Qed.

(** From order 1 on, both branches are the general formula on the first
    [m - 1] entries: the branch [m == 1] is its value on the empty prefix. *)
Lemma bartlett_prefix (r : list R) (m n : Z) :
  (0 < n)%Z -> (1 <= m)%Z ->
  _bartlett_formula r m n =
  Ok (sqrt ((1 + 2 * Py.sum (map (fun x => x ^ 2) (firstn (Z.to_nat (m - 1)) r)))
            / IZR n)).
Proof.
  intros Hn Hm. destruct (Z.eq_dec m 1) as [-> | Hne].
  - rewrite bartlett_order_1 by exact Hn.
    cbn [Z.sub Z.opp Z.add Z.pos_sub Z.to_nat firstn map].
    rewrite sum_nil. do 2 f_equal. lra.
  - rewrite bartlett_general by assumption.
    rewrite slice_upto_nonneg by lia. reflexivity.
Qed.

(** X1: for a positive sample length the standard error is computed, is
    strictly positive and is never below its order-1 value [sqrt(1/n)],
    whatever the vector and the order. *)
Theorem bartlett_at_least_white_noise (r : list R) (m n : Z) :
  (0 < n)%Z ->
  exists stat,
    _bartlett_formula r m n = Ok stat /\ 0 < stat /\ sqrt (1 / IZR n) <= stat.
Proof.
  intros Hn.
  assert (Hpos : 0 < sqrt (1 / IZR n)).
  { apply sqrt_lt_R0. apply Rmult_lt_0_compat; [lra |].
    apply Rinv_0_lt_compat, IZR_lt. exact Hn. }
  destruct (Z.eq_dec m 1) as [-> | Hne].
  - exists (sqrt (1 / IZR n)). split; [apply bartlett_order_1; exact Hn |].
    split; [exact Hpos | lra].
  - eexists. split; [apply bartlett_general; assumption |].
    pose proof (sum_sq_nonneg (Py.slice_upto r (m - 1))) as Hsum.
    assert (Hle : sqrt (1 / IZR n) <=
                  sqrt ((1 + 2 * Py.sum (map (fun x => x ^ 2) (Py.slice_upto r (m - 1))))
                        / IZR n)).
    { apply sqrt_div_le; [exact Hn | lra | lra]. }
    split; [lra | exact Hle].
Qed.

Lemma bartlett_at_least_white_noise_witness :
  exists stat,
    _bartlett_formula [1 / 2; 1 / 4; 1 / 8] 3 4 = Ok stat /\
    0 < stat /\ sqrt (1 / IZR 4) <= stat.
Proof. apply bartlett_at_least_white_noise. lia. Defined.

(** X2: the standard error is non-decreasing in the magnitude of the
    entries it reads: when every entry of [r[:m-1]] is at most, in absolute
    value, the entry of [r'[:m-1]] at the same position, the standard
    error of [r] is at most that of [r']. *)
Theorem bartlett_monotone_in_magnitude (r r' : list R) (m n : Z) :
  (0 < n)%Z ->
  Forall2 (fun x y => Rabs x <= Rabs y)
          (Py.slice_upto r (m - 1)) (Py.slice_upto r' (m - 1)) ->
  exists stat stat',
    _bartlett_formula r m n = Ok stat /\
    _bartlett_formula r' m n = Ok stat' /\
    stat <= stat'.
Proof.
  intros Hn Hmag. destruct (Z.eq_dec m 1) as [-> | Hne].
  - exists (sqrt (1 / IZR n)), (sqrt (1 / IZR n)).
    rewrite !bartlett_order_1 by exact Hn. repeat split. lra.
  - do 2 eexists.
    split; [apply bartlett_general; assumption |].
    split; [apply bartlett_general; assumption |].
    pose proof (sum_sq_nonneg (Py.slice_upto r (m - 1))).
    pose proof (sum_sq_le_abs _ _ Hmag).
    apply sqrt_div_le; [exact Hn | lra | lra].
Qed.

Lemma bartlett_monotone_in_magnitude_witness :
  exists stat stat',
    _bartlett_formula [1 / 2; 1 / 4; 1 / 8] 3 4 = Ok stat /\
    _bartlett_formula [-1; 1 / 2; 0] 3 4 = Ok stat' /\
    stat <= stat'.
Proof.
  apply bartlett_monotone_in_magnitude; [lia |].
  rewrite !slice_upto_nonneg by lia.
  cbn [Z.sub Z.opp Z.add Z.pos_sub Z.to_nat Pos.to_nat Pos.iter_op Nat.add firstn].
  repeat constructor; unfold Rabs; repeat destruct Rcase_abs; lra.
Defined.

(** X3: from order 1 on the standard error is non-decreasing in the order:
    a higher order adds squares to the sum. *)
Theorem bartlett_monotone_in_order (r : list R) (m m' n : Z) :
  (0 < n)%Z -> (1 <= m <= m')%Z ->
  exists stat stat',
    _bartlett_formula r m n = Ok stat /\
    _bartlett_formula r m' n = Ok stat' /\
    stat <= stat'.
Proof.
  intros Hn Hm. do 2 eexists.
  split; [apply bartlett_prefix; [exact Hn | lia] |].
  split; [apply bartlett_prefix; [exact Hn | lia] |].
  pose proof (sum_sq_nonneg (firstn (Z.to_nat (m - 1)) r)).
  pose proof (sum_sq_firstn_le r (Z.to_nat (m - 1)) (Z.to_nat (m' - 1)) ltac:(lia)).
  apply sqrt_div_le; [exact Hn | lra | lra].
Qed.

Lemma bartlett_monotone_in_order_witness :
  exists stat stat',
    _bartlett_formula [1 / 2; 1 / 4; 1 / 8] 1 4 = Ok stat /\
    _bartlett_formula [1 / 2; 1 / 4; 1 / 8] 3 4 = Ok stat' /\
    stat <= stat'.
Proof. apply bartlett_monotone_in_order; lia. Defined.

(** X4: order 0 is the exception to that ordering: it reads all entries but
    the last, so its standard error is at least that of every order from
    1 to [len(r)]. *)
Theorem bartlett_order_0_dominates (r : list R) (m n : Z) :
  (0 < n)%Z -> (1 <= m <= Z.of_nat (List.length r))%Z ->
  exists stat stat0,
    _bartlett_formula r m n = Ok stat /\
    _bartlett_formula r 0 n = Ok stat0 /\
    stat <= stat0.
Proof.
  intros Hn Hm. do 2 eexists.
  split; [apply bartlett_prefix; [exact Hn | lia] |].
  split; [apply bartlett_general; [lia | exact Hn] |].
  rewrite slice_upto_minus1, removelast_firstn_len.
  pose proof (sum_sq_nonneg (firstn (Z.to_nat (m - 1)) r)).
  pose proof (sum_sq_firstn_le r (Z.to_nat (m - 1)) (Nat.pred (List.length r))
                ltac:(lia)).
  apply sqrt_div_le; [exact Hn | lra | lra].
Qed.

Lemma bartlett_order_0_dominates_witness :
  exists stat stat0,
    _bartlett_formula [1 / 2; 1 / 4; 1 / 8] 3 4 = Ok stat /\
    _bartlett_formula [1 / 2; 1 / 4; 1 / 8] 0 4 = Ok stat0 /\
    stat <= stat0.
Proof. apply bartlett_order_0_dominates; simpl; lia. Defined.


(** ** The seasonality tester: what a verdict tells *)

Lemma take_clip_inside (data : list R) (i : Z) :
  (0 <= i <= Z.of_nat (List.length data) - 1)%Z ->
  take_clip data i = nth (Z.to_nat i) data 0.
Proof. intros Hi. unfold take_clip. f_equal. lia. Qed.

(** [argrelmax] returns the strict interior local maxima, and all of them. *)
Lemma argrelmax_spec (data : list R) (c : Z) :
  In c (argrelmax data) <->
  (1 <= c <= Z.of_nat (List.length data) - 2)%Z /\
  nth (Z.to_nat c) data 0 > nth (Z.to_nat (c - 1)) data 0 /\
  nth (Z.to_nat c) data 0 > nth (Z.to_nat (c + 1)) data 0.
Proof.
  split.
  - intros Hin. pose proof (argrelmax_bounds data c Hin) as Hc.
    unfold argrelmax in Hin. apply filter_In in Hin. destruct Hin as [_ Hgt].
    apply andb_prop in Hgt. destruct Hgt as [Hnext Hprev].
    rewrite !take_clip_inside in Hnext, Hprev by lia.
    apply Rgtb_true in Hnext. apply Rgtb_true in Hprev. auto.
  - intros (Hc & Hprev & Hnext). unfold argrelmax. apply filter_In. split.
    + apply in_map_iff. exists (Z.to_nat c). split; [lia |].
      apply in_seq. lia.
    + rewrite !take_clip_inside by lia.
      apply andb_true_intro. split; apply Rgtb_true; assumption.
Qed.

Lemma significance_loop_true (r : list R) (band : R) (n : Z)
    (candidates : list Z) (p : Z) :
  significance_loop r band n candidates = Ok (true, p) ->
  In p candidates /\ significant r band n p.
Proof.
  induction candidates as [|c cs IH]; simpl; intros Hres; [discriminate |].
  destruct (_bartlett_formula r (c - 1) n) as [stat |] eqn:Hstat; [| discriminate].
  cbn [bind] in Hres.
  destruct (Py.getitem r (c - 1)) as [x |] eqn:Hx; [| discriminate].
  cbn [bind] in Hres.
  destruct (Rgtb x (stat * band)) eqn:Hgt.
  - injection Hres as <-. split; [left; reflexivity |].
    exists stat, x. apply Rgtb_true in Hgt. auto.
  - destruct (IH Hres) as [Hin Hsig]. split; [right; exact Hin | exact Hsig].
Qed.

Lemma significance_loop_returns (r : list R) (band : R) (n : Z)
    (candidates : list Z) :
  Forall (fun c => significant r band n c \/ insignificant r band n c) candidates ->
  exists b p, significance_loop r band n candidates = Ok (b, p).
Proof.
  induction 1 as [|c cs Hc _ IH]; simpl.
  - eauto.
  - destruct Hc as [(stat & x & Hstat & Hx & Hgt) | (stat & x & Hstat & Hx & Hle)];
      rewrite Hstat; cbn [bind]; rewrite Hx; cbn [bind].
    + rewrite (proj2 (Rgtb_true _ _) Hgt). eauto.
    + rewrite (proj2 (Rgtb_false _ _) Hle). exact IH.
Qed.

Section SeasonalityVerdicts.

Variable acf : list R -> Z -> result (list R).
Variable norm_ppf : R -> R.

(** Every way [check_seasonality] can return. *)
Lemma check_seasonality_returns (ts : TimeSeries) (m : option PyNumber)
    (max_lag : Z) (alpha : R) (b : bool) (p : Z) :
  check_seasonality acf norm_ppf ts m max_lag alpha = Ok (b, p) ->
  is_univariate ts = true /\ valid_period m max_lag /\
  ((b = false /\ p = 0%Z) \/
   exists r0,
     acf (values ts) max_lag = Ok r0 /\
     n_unique (values ts) <> 1%nat /\
     ((b = false /\ period_of m = Some p /\ ~ In p (argrelmax r0)) \/
      (b = true /\ In p (argrelmax r0) /\
       (forall z, period_of m = Some z -> z = p) /\
       significant (Py.slice_from1 r0)
         (band_upper norm_ppf (Py.slice_from1 r0) alpha) (len ts) p))).
Proof.
  unfold check_seasonality, _assert_univariate.
  destruct (is_univariate ts); cbn [bind]; [| discriminate].
  destruct (check_period m max_lag) as [mz |] eqn:Hper; cbn [bind]; [| discriminate].
  apply check_period_inv in Hper. destruct Hper as [Hv ->].
  intros Hres. split; [reflexivity |]. split; [exact Hv |].
  destruct (Nat.eqb_spec (n_unique (values ts)) 1) as [| Hn].
  { left. injection Hres as <- <-. auto. }
  destruct (acf (values ts) max_lag) as [r0 |] eqn:Hacf; cbn [bind] in Hres;
    [| discriminate].
  destruct (Nat.eqb (List.length (argrelmax r0)) 0).
  { left. injection Hres as <- <-. auto. }
  destruct (period_of m) as [z |].
  - destruct (mem z (argrelmax r0)) eqn:Hmem; cbn [negb] in Hres.
    + unfold significance in Hres. destruct b.
      * apply significance_loop_true in Hres. destruct Hres as [[<- | []] Hsig].
        right. exists r0. split; [reflexivity |]. split; [exact Hn |].
        right. split; [reflexivity |]. split; [apply mem_In; exact Hmem |].
        split; [intros z' Hz'; congruence | exact Hsig].
      * apply significance_loop_result in Hres.
        destruct Hres as [[_ ->] | [Hb _]]; [left; auto | discriminate].
    + injection Hres as <- <-. right. exists r0.
      split; [reflexivity |]. split; [exact Hn |].
      left. split; [reflexivity |]. split; [reflexivity |].
      intros Hin. apply mem_In in Hin. congruence.
  - unfold significance in Hres. destruct b.
    + apply significance_loop_true in Hres. destruct Hres as [Hin Hsig].
      right. exists r0. split; [reflexivity |]. split; [exact Hn |].
      right. split; [reflexivity |]. split; [exact Hin |].
      split; [intros z' Hz'; discriminate | exact Hsig].
    + apply significance_loop_result in Hres.
      destruct Hres as [[_ ->] | [Hb _]]; [left; auto | discriminate].
Qed.

(** X6: a positive verdict [(True, p)] always names a strict interior local
    maximum of the autocorrelation vector the collaborator returned: [p]
    is neither lag 0 nor the last lag, and the autocorrelation at [p]
    exceeds both neighbours.  It passed the significance test, and when a
    period was requested it is that period. *)
Theorem check_seasonality_positive_verdict (ts : TimeSeries)
    (m : option PyNumber) (max_lag : Z) (alpha : R) (p : Z) :
  check_seasonality acf norm_ppf ts m max_lag alpha = Ok (true, p) ->
  exists r0,
    acf (values ts) max_lag = Ok r0 /\
    (1 <= p <= Z.of_nat (List.length r0) - 2)%Z /\
    nth (Z.to_nat p) r0 0 > nth (Z.to_nat (p - 1)) r0 0 /\
    nth (Z.to_nat p) r0 0 > nth (Z.to_nat (p + 1)) r0 0 /\
    significant (Py.slice_from1 r0)
      (Py.mean (Py.slice_from1 r0) +
       norm_ppf (1 - alpha / 2) * Py.var (Py.slice_from1 r0)) (len ts) p /\
    (forall v, m = Some v -> v = PyInt p).
Proof.
  intros Hres. apply check_seasonality_returns in Hres.
  destruct Hres as (_ & Hv & [[Hb _] | (r0 & Hacf & _ & [[Hb _] | (_ & Hin & Hm & Hsig)])]);
    try discriminate.
  exists r0. apply argrelmax_spec in Hin. destruct Hin as (Hc & Hprev & Hnext).
  repeat (split; [assumption |]).
  intros v ->. destruct v as [z | x]; simpl in Hv; [| contradiction].
  f_equal. apply Hm. reflexivity.
Qed.

(** X7: a negative verdict carries period 0, except in one case: a period
    [p] was requested, the series is not constant and [p] is not a strict
    interior local maximum of the autocorrelation vector; then the verdict
    is [(False, p)] with [2 <= p <= max_lag]. *)
Theorem check_seasonality_negative_verdict (ts : TimeSeries)
    (m : option PyNumber) (max_lag : Z) (alpha : R) (p : Z) :
  check_seasonality acf norm_ppf ts m max_lag alpha = Ok (false, p) ->
  p = 0%Z \/
  (m = Some (PyInt p) /\ (2 <= p <= max_lag)%Z /\
   n_unique (values ts) <> 1%nat /\
   exists r0,
     acf (values ts) max_lag = Ok r0 /\
     ~ ((1 <= p <= Z.of_nat (List.length r0) - 2)%Z /\
        nth (Z.to_nat p) r0 0 > nth (Z.to_nat (p - 1)) r0 0 /\
        nth (Z.to_nat p) r0 0 > nth (Z.to_nat (p + 1)) r0 0)).
Proof.
  intros Hres. apply check_seasonality_returns in Hres.
  destruct Hres as (_ & Hv & [[_ Hp] | (r0 & Hacf & Hn & [(_ & Hm & Hnotin) | (Hb & _)])]);
    [left; exact Hp | | discriminate].
  right. destruct m as [[z | x] |]; simpl in Hv, Hm; try discriminate.
  injection Hm as ->.
  split; [reflexivity |]. split; [exact Hv |]. split; [exact Hn |].
  exists r0. split; [exact Hacf |].
  intros Hmax. apply Hnotin, argrelmax_spec. exact Hmax.
Qed.

(** X8: when the autocorrelation collaborator returns at most
    [max_lag + 1] values, a positive verdict names a period in
    [1, max_lag - 1]: the last lag has no right neighbour and is never a
    candidate.  In particular a requested period equal to [max_lag] is
    never confirmed. *)
Theorem check_seasonality_positive_below_max_lag (ts : TimeSeries)
    (m : option PyNumber) (max_lag : Z) (alpha : R) (p : Z) :
  (forall r0, acf (values ts) max_lag = Ok r0 ->
              (Z.of_nat (List.length r0) <= max_lag + 1)%Z) ->
  check_seasonality acf norm_ppf ts m max_lag alpha = Ok (true, p) ->
  (1 <= p <= max_lag - 1)%Z /\ m <> Some (PyInt max_lag).
Proof.
  intros Hlen Hres. apply check_seasonality_returns in Hres.
  destruct Hres as (_ & _ & [[Hb _] | (r0 & Hacf & _ & [[Hb _] | (_ & Hin & Hm & _)])]);
    try discriminate.
  apply argrelmax_bounds in Hin. specialize (Hlen r0 Hacf).
  split; [lia |].
  intros ->. specialize (Hm max_lag eq_refl). lia.
Qed.

(** X9: on a non-empty univariate series with a period that satisfies the
    preconditions, the only exceptions are the autocorrelation
    collaborator's: when it returns (or on a constant series, where it is
    not called) the function returns a verdict.  No index is out of range
    and no division by zero occurs. *)
Theorem check_seasonality_returns_verdict (ts : TimeSeries)
    (m : option PyNumber) (max_lag : Z) (alpha : R) :
  is_univariate ts = true ->
  valid_period m max_lag ->
  (0 < len ts)%Z ->
  (n_unique (values ts) = 1%nat \/ exists r0, acf (values ts) max_lag = Ok r0) ->
  exists b p, check_seasonality acf norm_ppf ts m max_lag alpha = Ok (b, p).
Proof.
  intros Hu Hv Hlen Hacf.
  destruct (Nat.eq_dec (n_unique (values ts)) 1) as [Hone | Hn].
  { unfold check_seasonality, _assert_univariate.
    rewrite Hu. cbn [bind]. rewrite (check_period_valid _ _ Hv). cbn [bind].
    rewrite Hone. cbn [Nat.eqb]. eauto. }
  destruct Hacf as [Hone | [r0 Hacf]]; [contradiction |].
  destruct (argrelmax r0) as [|c0 cs] eqn:Hcand.
  { unfold check_seasonality, _assert_univariate.
    rewrite Hu. cbn [bind]. rewrite (check_period_valid _ _ Hv). cbn [bind].
    destruct (Nat.eqb_spec (n_unique (values ts)) 1); [contradiction |].
    rewrite Hacf. cbn [bind]. rewrite Hcand. cbn [List.length Nat.eqb]. eauto. }
  rewrite (check_seasonality_candidates acf norm_ppf ts m max_lag alpha r0)
    by (try assumption; rewrite Hcand; discriminate).
  assert (Hexam : forall c, In c (argrelmax r0) ->
            significant (Py.slice_from1 r0)
              (band_upper norm_ppf (Py.slice_from1 r0) alpha) (len ts) c \/
            insignificant (Py.slice_from1 r0)
              (band_upper norm_ppf (Py.slice_from1 r0) alpha) (len ts) c).
  { intros c Hc. apply candidate_examined; [exact Hlen |].
    apply argrelmax_bounds in Hc. rewrite slice_from1_length. lia. }
  destruct (period_of m) as [z |].
  - destruct (mem z (argrelmax r0)) eqn:Hmem; cbn [negb]; [| eauto].
    unfold significance. apply significance_loop_returns.
    constructor; [| constructor]. apply Hexam, mem_In, Hmem.
  - unfold significance. apply significance_loop_returns.
    rewrite Forall_forall. exact Hexam.
Qed.

End SeasonalityVerdicts.

(** ** Removal of a decomposition component *)

Lemma values_univariate (ts : TimeSeries) :
  is_univariate ts = true -> columns ts = [values ts].
Proof.
  unfold is_univariate, values. destruct ts as [ti [|c [|c' cs]]]; simpl;
    try discriminate.
  intros _. rewrite app_nil_r. reflexivity.
Qed.

Lemma binop_component (f : R -> R -> R) (ts : TimeSeries) (vals : list R) :
  is_univariate ts = true ->
  ts_binop f ts (from_times_and_values (time_index ts) vals) =
  from_times_and_values (time_index ts) (map2 f (values ts) vals).
Proof.
  intros Hu. unfold ts_binop, from_times_and_values. simpl columns.
  rewrite (values_univariate ts Hu). reflexivity.
Qed.

Section Removal.

Variable seasonal_decompose :
  list Z -> list R -> option Z -> option string -> result (list R * list R).

(** X10: on a univariate series and with the model ADDITIVE (resp.
    MULTIPLICATIVE), [remove_trend] returns the series over the same time
    index whose values are the values minus (resp. divided by) the trend
    the decomposition collaborator returns for [period=None]; when the
    collaborator raises, [remove_trend] raises the same exception. *)
Theorem remove_trend_composes (ts : TimeSeries) (model : Model) :
  is_univariate ts = true ->
  is_ADDITIVE model \/ is_MULTIPLICATIVE model ->
  (forall seasonal trend,
      seasonal_decompose (time_index ts) (values ts) None (value model) =
      Ok (seasonal, trend) ->
      (is_ADDITIVE model ->
       remove_trend seasonal_decompose ts model =
       Ok (from_times_and_values (time_index ts) (map2 Rminus (values ts) trend))) /\
      (is_MULTIPLICATIVE model ->
       remove_trend seasonal_decompose ts model =
       Ok (from_times_and_values (time_index ts) (map2 Rdiv (values ts) trend)))) /\
  (forall e,
      seasonal_decompose (time_index ts) (values ts) None (value model) = Raise e ->
      remove_trend seasonal_decompose ts model = Raise e).
Proof.
  intros Hu Hmodel.
  assert (Hrun : remove_trend seasonal_decompose ts model =
                 (ts_pair <- extract_trend_and_seasonality seasonal_decompose ts None model ;;
                  remove_from_series ts (fst ts_pair) model)).
  { unfold remove_trend, _assert_univariate. rewrite Hu. reflexivity. }
  rewrite Hrun, (extract_accepts seasonal_decompose ts None model Hu Hmodel).
  split.
  - intros seasonal trend Hdec. rewrite Hdec. cbn [bind fst snd]. split; intros Hm.
    + rewrite (remove_from_series_additive ts _ model Hu Hm).
      f_equal. apply binop_component. exact Hu.
    + rewrite (remove_from_series_multiplicative ts _ model Hu Hm).
      f_equal. apply binop_component. exact Hu.
  - intros e Hdec. rewrite Hdec. reflexivity.
Qed.

(** X11: likewise [remove_seasonality] returns the values minus (resp.
    divided by) the seasonal component the collaborator returns for the
    requested period, over the same time index, and passes on the
    collaborator's exception. *)
Theorem remove_seasonality_composes (ts : TimeSeries) (freq : option Z)
    (model : Model) :
  is_univariate ts = true ->
  is_ADDITIVE model \/ is_MULTIPLICATIVE model ->
  (forall seasonal trend,
      seasonal_decompose (time_index ts) (values ts) freq (value model) =
      Ok (seasonal, trend) ->
      (is_ADDITIVE model ->
       remove_seasonality seasonal_decompose ts freq model =
       Ok (from_times_and_values (time_index ts) (map2 Rminus (values ts) seasonal))) /\
      (is_MULTIPLICATIVE model ->
       remove_seasonality seasonal_decompose ts freq model =
       Ok (from_times_and_values (time_index ts) (map2 Rdiv (values ts) seasonal)))) /\
  (forall e,
      seasonal_decompose (time_index ts) (values ts) freq (value model) = Raise e ->
      remove_seasonality seasonal_decompose ts freq model = Raise e).
Proof.
  intros Hu Hmodel.
  assert (Hrun : remove_seasonality seasonal_decompose ts freq model =
                 (ts_pair <- extract_trend_and_seasonality seasonal_decompose ts freq model ;;
                  remove_from_series ts (snd ts_pair) model)).
  { unfold remove_seasonality, _assert_univariate. rewrite Hu. cbn [bind].
    destruct Hmodel as [[-> | ->] | [-> | ->]]; reflexivity. }
  rewrite Hrun, (extract_accepts seasonal_decompose ts freq model Hu Hmodel).
  split.
  - intros seasonal trend Hdec. rewrite Hdec. cbn [bind fst snd]. split; intros Hm.
    + rewrite (remove_from_series_additive ts _ model Hu Hm).
      f_equal. apply binop_component. exact Hu.
    + rewrite (remove_from_series_multiplicative ts _ model Hu Hm).
      f_equal. apply binop_component. exact Hu.
  - intros e Hdec. rewrite Hdec. reflexivity.
Qed.

(** X12: [remove_trend] has no guard of its own on the model, yet it
    rejects every model other than ADDITIVE and MULTIPLICATIVE with
    [ValueError], through [extract_trend_and_seasonality], for every series
    and every decomposition collaborator. *)
Theorem remove_trend_rejects (ts : TimeSeries) (model : Model) :
  ~ is_ADDITIVE model -> ~ is_MULTIPLICATIVE model ->
  InvalidArgument (remove_trend seasonal_decompose ts model).
Proof.
  intros Ha Hm.
  destruct (extract_rejects seasonal_decompose ts None model Ha Hm) as [msg Hmsg].
  unfold InvalidArgument, remove_trend.
  unfold _assert_univariate in *.
  destruct (is_univariate ts); cbn [bind]; [| eexists; reflexivity].
  rewrite Hmsg. cbn [bind]. exists msg. reflexivity.
Qed.

(** X13: the four decomposition functions read a model only through its
    value: two members with the same value, one of [ModelMode] and one of
    [SeasonalityMode], give the same result in each of them. *)
Theorem model_enums_interchangeable (ts other : TimeSeries) (freq : option Z)
    (model model' : Model) :
  (is_ADDITIVE model /\ is_ADDITIVE model') \/
  (is_MULTIPLICATIVE model /\ is_MULTIPLICATIVE model') ->
  extract_trend_and_seasonality seasonal_decompose ts freq model =
  extract_trend_and_seasonality seasonal_decompose ts freq model' /\
  remove_from_series ts other model = remove_from_series ts other model' /\
  remove_seasonality seasonal_decompose ts freq model =
  remove_seasonality seasonal_decompose ts freq model' /\
  remove_trend seasonal_decompose ts model =
  remove_trend seasonal_decompose ts model'.
Proof.
  intros [[[-> | ->] [-> | ->]] | [[-> | ->] [-> | ->]]];
    repeat split; reflexivity.
Qed.

(** X14: deseasonalising and putting the seasonal component back gives the
    series again, over the reals.  On a univariate series, when the
    collaborator returns a seasonal component with one value per value of
    the series, the result of [remove_seasonality] under ADDITIVE plus that
    component, and its result under MULTIPLICATIVE times that component
    (nowhere zero), are the series itself. *)
Theorem remove_seasonality_then_restore (ts : TimeSeries) (freq : option Z)
    (model : Model) (seasonal trend : list R) :
  is_univariate ts = true ->
  seasonal_decompose (time_index ts) (values ts) freq (value model) =
  Ok (seasonal, trend) ->
  List.length seasonal = List.length (values ts) ->
  (is_ADDITIVE model ->
   exists d,
     remove_seasonality seasonal_decompose ts freq model = Ok d /\
     ts_add d (from_times_and_values (time_index ts) seasonal) = ts) /\
  (is_MULTIPLICATIVE model ->
   Forall (fun y => y <> 0) seasonal ->
   exists d,
     remove_seasonality seasonal_decompose ts freq model = Ok d /\
     ts_mul d (from_times_and_values (time_index ts) seasonal) = ts).
Proof.
  intros Hu Hdec Hlen.
  assert (Hrun : forall model', value model' = value model ->
            is_ADDITIVE model' \/ is_MULTIPLICATIVE model' ->
            remove_seasonality seasonal_decompose ts freq model' =
            remove_from_series ts (from_times_and_values (time_index ts) seasonal) model').
  { intros model' Hval Hmodel. unfold remove_seasonality, _assert_univariate.
    rewrite Hu. cbn [bind].
    rewrite (extract_accepts seasonal_decompose ts freq model' Hu Hmodel).
    rewrite Hval, Hdec.
    destruct Hmodel as [[-> | ->] | [-> | ->]]; reflexivity. }
  assert (Hts : ts = mkTimeSeries (time_index ts) [values ts]).
  { destruct ts as [ti cs]. simpl. f_equal.
    apply (values_univariate (mkTimeSeries ti cs) Hu). }
  split.
  - intros Ha. eexists. split.
    + rewrite Hrun by auto.
      apply remove_from_series_additive; assumption.
    + unfold ts_add, ts_sub. rewrite binop_component by exact Hu.
      unfold ts_binop, from_times_and_values. simpl.
      rewrite map2_sub_add by (symmetry; exact Hlen). symmetry. exact Hts.
  - intros Hm Hnz. eexists. split.
    + rewrite Hrun by auto.
      apply remove_from_series_multiplicative; assumption.
    + unfold ts_mul, ts_truediv. rewrite binop_component by exact Hu.
      unfold ts_binop, from_times_and_values. simpl.
      rewrite map2_div_mul by (try (symmetry; exact Hlen); exact Hnz).
      symmetry. exact Hts.
Qed.

End Removal.

(** ** Correlogram plots: the guards *)

Lemma Rltb_true (x y : R) : Rltb x y = true <-> x < y.
Proof.
  unfold Rltb. destruct (Rlt_dec x y); split; intros; try easy.
Qed.

Lemma Rleb_true (x y : R) : Rleb x y = true <-> x <= y.
Proof.
  unfold Rleb. destruct (Rle_dec x y); split; intros; try easy.
Qed.

Lemma py_between_range (v : PyNumber) (k : Z) :
  py_between 0 v k = true <-> highlight_in_range (Some v) k.
Proof.
  destruct v as [z | x]; simpl.
  - rewrite andb_true_iff, !Z.leb_le. reflexivity.
  - rewrite andb_true_iff, !Rleb_true. reflexivity.
Qed.

Lemma check_max_lag_inv (max_lag : option Z) (bound : Z) (msg : string) :
  (exists k, max_lag = Some k /\ (1 <= k < bound)%Z /\
             check_max_lag max_lag bound msg = Ok k) \/
  (~ (exists k, max_lag = Some k /\ (1 <= k < bound)%Z) /\
   check_max_lag max_lag bound msg = Raise (ValueError msg)).
Proof.
  destruct max_lag as [k |]; simpl.
  - unfold raise_if, raise_if_not.
    destruct ((1 <=? k) && (k <? bound))%Z eqn:Hk; simpl.
    + left. exists k. apply andb_prop in Hk. destruct Hk as [H1 H2].
      apply Z.leb_le in H1. apply Z.ltb_lt in H2. auto.
    + right. split; [| reflexivity].
      intros (k' & Heq & Hr). injection Heq as <-.
      apply andb_false_iff in Hk. destruct Hk as [H | H];
        [apply Z.leb_gt in H | apply Z.ltb_ge in H]; lia.
  - right. split; [| reflexivity]. intros (k & Heq & _). discriminate.
Qed.

Lemma check_highlight_inv (m : option PyNumber) (k : Z) :
  (highlight_in_range m k /\ check_highlight m k = Ok tt) \/
  (~ highlight_in_range m k /\ InvalidArgument (check_highlight m k)).
Proof.
  unfold check_highlight, raise_if, raise_if_not, InvalidArgument.
  destruct m as [v |]; [| left; split; [exact I | reflexivity]].
  destruct (py_between 0 v k) eqn:Hb; simpl.
  - left. split; [apply py_between_range; exact Hb | reflexivity].
  - right. split; [| eexists; reflexivity].
    intros Hr. apply py_between_range in Hr. congruence.
Qed.

Lemma check_alpha_inv (alpha : option R) :
  (exists a, alpha = Some a /\ 0 < a < 1 /\ check_alpha alpha = Ok a) \/
  (~ (exists a, alpha = Some a /\ 0 < a < 1) /\ InvalidArgument (check_alpha alpha)).
Proof.
  unfold InvalidArgument.
  destruct alpha as [a |]; simpl.
  - unfold raise_if, raise_if_not.
    destruct (Rltb 0 a && Rltb a 1) eqn:Ha; simpl.
    + left. exists a. apply andb_prop in Ha. destruct Ha as [H0 H1].
      apply Rltb_true in H0. apply Rltb_true in H1. auto.
    + right. split; [| eexists; reflexivity].
      intros (a' & Heq & H0 & H1). injection Heq as <-.
      apply andb_false_iff in Ha. destruct Ha as [H | H];
        [rewrite (proj2 (Rltb_true _ _) H0) in H
        | rewrite (proj2 (Rltb_true _ _) H1) in H]; discriminate.
  - right. split; [| eexists; reflexivity]. intros (a & Heq & _). discriminate.
Qed.

(** The three guards in sequence: either the arguments are accepted and the
    rest of the function runs on the validated [max_lag] and [alpha], or
    they are not and [ValueError] is raised. *)
Lemma correlogram_guards (bound : Z) (msg : string) (m : option PyNumber)
    (max_lag : option Z) (alpha : option R) :
  (exists k a,
      max_lag = Some k /\ (1 <= k < bound)%Z /\ highlight_in_range m k /\
      alpha = Some a /\ 0 < a < 1 /\
      forall (A : Type) (rest : Z -> R -> result A),
        (k' <- check_max_lag max_lag bound msg ;;
         _ <- check_highlight m k' ;;
         a' <- check_alpha alpha ;;
         rest k' a') = rest k a) \/
  (~ correlogram_args_ok bound m max_lag alpha /\
   forall (A : Type) (rest : Z -> R -> result A),
     InvalidArgument
       (k' <- check_max_lag max_lag bound msg ;;
        _ <- check_highlight m k' ;;
        a' <- check_alpha alpha ;;
        rest k' a')).
Proof.
  destruct (check_max_lag_inv max_lag bound msg) as [(k & Hk & Hr & Hc) | [Hn Hc]].
  2:{ right. split.
      - intros (k & a & Hk & Hr & _). apply Hn. eauto.
      - intros A rest. rewrite Hc. eexists. reflexivity. }
  destruct (check_highlight_inv m k) as [[Hm Hh] | [Hn [msg' Hh]]].
  2:{ right. split.
      - intros (k' & a & Hk' & _ & Hm & _). apply Hn. congruence.
      - intros A rest. rewrite Hc. cbn [bind]. rewrite Hh. eexists. reflexivity. }
  destruct (check_alpha_inv alpha) as [(a & Ha & Hr' & Hal) | [Hn [msg' Hal]]].
  2:{ right. split.
      - intros (k' & a & _ & _ & _ & Ha & Hr'). apply Hn. eauto.
      - intros A rest. rewrite Hc. cbn [bind]. rewrite Hh. cbn [bind].
        rewrite Hal. eexists. reflexivity. }
  left. exists k, a. repeat (split; [assumption |]).
  intros A rest. rewrite Hc. cbn [bind]. rewrite Hh. cbn [bind].
  rewrite Hal. reflexivity.
Qed.

(** ** Correlogram plots: what is drawn *)

Lemma py_range_In (lo hi x : Z) : In x (py_range lo hi) <-> (lo <= x < hi)%Z.
Proof.
  unfold py_range. rewrite in_map_iff. split.
  - intros (k & <- & Hk). apply in_seq in Hk. lia.
  - intros Hx. exists (Z.to_nat (x - lo)). split; [lia |]. apply in_seq. lia.
Qed.

Lemma py_range_length (lo hi : Z) :
  List.length (py_range lo hi) = Z.to_nat (hi - lo).
Proof. unfold py_range. rewrite length_map, length_seq. reflexivity. Qed.

Lemma py_range_NoDup (lo hi : Z) : NoDup (py_range lo hi).
Proof.
  unfold py_range. generalize (Z.to_nat (hi - lo)) as n, 0%nat as a.
  induction n as [|n IH]; intros a; simpl; constructor; [| apply IH].
  rewrite in_map_iff. intros (k & Hk & Hin). apply in_seq in Hin. lia.
Qed.

Lemma comprehension_map {A B : Type} (f : A -> result B) (g : A -> B)
    (xs : list A) :
  (forall x, In x xs -> f x = Ok (g x)) ->
  comprehension f xs = Ok (map g xs).
Proof.
  induction xs as [|x xs IH]; intros Hf; simpl; [reflexivity |].
  rewrite (Hf x) by (left; reflexivity). cbn [bind].
  rewrite IH by (intros y Hy; apply Hf; right; exact Hy). reflexivity.
Qed.

Lemma getitem_row_in_range (rows : list (R * R)) (i : Z) :
  (0 <= i < Z.of_nat (List.length rows))%Z ->
  getitem_row rows i = Ok (nth (Z.to_nat i) rows (0, 0)).
Proof.
  intros Hi. unfold getitem_row.
  destruct (Z.ltb_spec i 0); [lia |].
  destruct (Z.leb_spec 0 i); [| lia].
  destruct (Z.ltb_spec i (Z.of_nat (List.length rows))); [| lia].
  reflexivity.
Qed.

Lemma upp_band_full (r : list R) (confint : list (R * R)) (k : Z) :
  (k + 1 <= Z.of_nat (List.length r))%Z ->
  (k + 1 <= Z.of_nat (List.length confint))%Z ->
  upp_band r confint k = Ok (band_of r confint k).
Proof.
  intros Hr Hc. unfold upp_band, band_of. apply comprehension_map.
  intros lag Hlag. apply py_range_In in Hlag.
  rewrite getitem_row_in_range by lia. cbn [bind].
  rewrite getitem_in_range by lia. reflexivity.
Qed.

Lemma draw_correlogram_full (r : list R) (confint : list (R * R))
    (m : option PyNumber) (k : Z) (fig_size : Z * Z) (axis : option nat) :
  Z.of_nat (List.length r) = (k + 1)%Z ->
  Z.of_nat (List.length confint) = (k + 1)%Z ->
  draw_correlogram r confint m k fig_size axis =
  (match axis with None => [Figure fig_size] | Some _ => [] end ++
   map (stem (match axis with None => Pyplot | Some h => Axis h end) r m)
       (py_range 0 (k + 1)) ++
   [FillBetween (match axis with None => Pyplot | Some h => Axis h end)
      (py_range 1 (k + 1)) (band_of r confint k)
      (map Ropp (band_of r confint k)) "#003DFD" (1 / 4);
    Plot (match axis with None => Pyplot | Some h => Axis h end)
      (0%Z, (k + 1)%Z) (0, 0) "black" None],
   Ok tt).
Proof.
  intros Hr Hc. unfold draw_correlogram.
  rewrite upp_band_full by lia. rewrite Hr. reflexivity.
Qed.

Lemma filter_eqb_NoDup (z : Z) (xs : list Z) :
  NoDup xs -> In z xs -> filter (fun i => (i =? z)%Z) xs = [z].
Proof.
  induction 1 as [|x xs Hx _ IH]; intros Hin; [destruct Hin |]. simpl.
  destruct (Z.eqb_spec x z) as [-> | Hne].
  - f_equal. clear IH Hin. induction xs as [|y ys IHy]; [reflexivity |]. simpl.
    destruct (Z.eqb_spec y z) as [-> | _].
    + exfalso. apply Hx. left. reflexivity.
    + apply IHy. intros Hin. apply Hx. right. exact Hin.
  - destruct Hin as [-> | Hin]; [contradiction | apply IH; exact Hin].
Qed.

Lemma filter_false {A : Type} (f : A -> bool) (xs : list A) :
  (forall x, In x xs -> f x = false) -> filter f xs = [].
Proof.
  induction xs as [|x xs IH]; intros Hf; simpl; [reflexivity |].
  rewrite (Hf x) by (left; reflexivity).
  apply IH. intros y Hy. apply Hf. right. exact Hy.
Qed.

Lemma filter_map_swap {A B : Type} (f : B -> bool) (g : A -> B) (xs : list A) :
  filter f (map g xs) = map g (filter (fun x => f (g x)) xs).
Proof.
  induction xs as [|x xs IH]; simpl; [reflexivity |].
  destruct (f (g x)); simpl; rewrite IH; reflexivity.
Qed.

Lemma is_highlight_stem (on : Canvas) (r : list R) (m : option PyNumber) (i : Z) :
  is_highlight (stem on r m i) = is_highlighted m i.
Proof.
  unfold stem, is_highlight. destruct (is_highlighted m i); reflexivity.
Qed.

(** Among the drawing calls of a complete correlogram, the highlighted
    ones: none without [m], the stem at lag [z] for [m = z]. *)
Lemma highlights_of_correlogram (on : Canvas) (setup : list Cmd) (r band : list R)
    (m : option PyNumber) (k : Z) :
  (forall c, In c setup -> is_highlight c = false) ->
  highlight_in_range m k ->
  (m = None ->
   filter is_highlight
     (setup ++ map (stem on r m) (py_range 0 (k + 1)) ++
      [FillBetween on (py_range 1 (k + 1)) band (map Ropp band) "#003DFD" (1 / 4);
       Plot on (0%Z, (k + 1)%Z) (0, 0) "black" None]) = []) /\
  (forall z, m = Some (PyInt z) ->
   filter is_highlight
     (setup ++ map (stem on r m) (py_range 0 (k + 1)) ++
      [FillBetween on (py_range 1 (k + 1)) band (map Ropp band) "#003DFD" (1 / 4);
       Plot on (0%Z, (k + 1)%Z) (0, 0) "black" None]) =
   [Plot on (z, z) (0, nth (Z.to_nat z) r 0) "#b512b8" (Some 1)]).
Proof.
  intros Hsetup Hm.
  assert (Hfilter : forall m',
    filter is_highlight
      (setup ++ map (stem on r m') (py_range 0 (k + 1)) ++
       [FillBetween on (py_range 1 (k + 1)) band (map Ropp band) "#003DFD" (1 / 4);
        Plot on (0%Z, (k + 1)%Z) (0, 0) "black" None]) =
    map (stem on r m') (filter (is_highlighted m') (py_range 0 (k + 1)))).
  { intros m'. rewrite !filter_app, (filter_false _ setup Hsetup).
    cbn [filter is_highlight String.eqb Ascii.eqb Bool.eqb].
    cbn [app]. rewrite app_nil_r, filter_map_swap.
    f_equal. apply filter_ext. intros i. apply is_highlight_stem. }
  split.
  - intros ->. rewrite Hfilter.
    rewrite (filter_false (is_highlighted None)); [reflexivity | reflexivity].
  - intros z ->. rewrite Hfilter. simpl in Hm.
    rewrite (filter_ext (is_highlighted (Some (PyInt z))) (fun i => (i =? z)%Z))
      by (intros i; reflexivity).
    rewrite filter_eqb_NoDup;
      [| apply py_range_NoDup | apply py_range_In; lia].
    cbn [map]. unfold stem. cbn [is_highlighted py_eq_int].
    rewrite Z.eqb_refl. reflexivity.
Qed.

Section PlotProperties.

Variable acf_confint : list R -> Z -> R -> bool -> result (list R * list (R * R)).
Variable pacf_confint : list R -> Z -> string -> R -> result (list R * list (R * R)).

Lemma plot_acf_cases (ts : TimeSeries) (m : option PyNumber) (max_lag : option Z)
    (alpha : option R) (bartlett_confint : bool) (fig_size : Z * Z)
    (axis : option nat) :
  is_univariate ts = true ->
  (exists k a,
      max_lag = Some k /\ (1 <= k < len ts)%Z /\ highlight_in_range m k /\
      alpha = Some a /\ 0 < a < 1 /\
      plot_acf acf_confint ts m max_lag alpha bartlett_confint fig_size axis =
      match acf_confint (values ts) k a bartlett_confint with
      | Raise e => ([], Raise e)
      | Ok (r, confint) => draw_correlogram r confint m k fig_size axis
      end) \/
  (~ correlogram_args_ok (len ts) m max_lag alpha /\
   exists msg,
     plot_acf acf_confint ts m max_lag alpha bartlett_confint fig_size axis =
     ([], Raise (ValueError msg))).
Proof.
  intros Hu. unfold plot_acf, _assert_univariate. rewrite Hu. cbn [bind].
  destruct (correlogram_guards (len ts)
              "max_lag must be greater than or equal to 1 and less than len(ts)."
              m max_lag alpha)
    as [(k & a & Hk & Hr & Hm & Ha & Hr' & Hrest) | [Hn Hrest]].
  - left. exists k, a. repeat (split; [assumption |]).
    pose proof (Hrest _ (fun k a =>
      rc <- acf_confint (values ts) k a bartlett_confint ;; Ok (k, rc))) as H.
    cbv beta in H. rewrite H.
    destruct (acf_confint (values ts) k a bartlett_confint) as [[r confint] | e];
      reflexivity.
  - right. split; [exact Hn |].
    pose proof (Hrest _ (fun k a =>
      rc <- acf_confint (values ts) k a bartlett_confint ;; Ok (k, rc))) as H.
    cbv beta in H. destruct H as [msg H]. rewrite H. exists msg. reflexivity.
Qed.

Lemma plot_pacf_cases (ts : TimeSeries) (m : option PyNumber) (max_lag : option Z)
    (method : string) (alpha : option R) (fig_size : Z * Z) (axis : option nat) :
  is_univariate ts = true ->
  (exists k a,
      max_lag = Some k /\ (1 <= k < len ts / 2)%Z /\ highlight_in_range m k /\
      alpha = Some a /\ 0 < a < 1 /\
      plot_pacf pacf_confint ts m max_lag method alpha fig_size axis =
      match pacf_confint (values ts) k method a with
      | Raise e => ([], Raise e)
      | Ok (r, confint) => draw_correlogram r confint m k fig_size axis
      end) \/
  (~ correlogram_args_ok (len ts / 2) m max_lag alpha /\
   exists msg,
     plot_pacf pacf_confint ts m max_lag method alpha fig_size axis =
     ([], Raise (ValueError msg))).
Proof.
  intros Hu. unfold plot_pacf, _assert_univariate. rewrite Hu. cbn [bind].
  destruct (correlogram_guards (len ts / 2)
              "max_lag must be greater than or equal to 1 and less than len(ts)//2."
              m max_lag alpha)
    as [(k & a & Hk & Hr & Hm & Ha & Hr' & Hrest) | [Hn Hrest]].
  - left. exists k, a. repeat (split; [assumption |]).
    pose proof (Hrest _ (fun k a =>
      rc <- pacf_confint (values ts) k method a ;; Ok (k, rc))) as H.
    cbv beta in H. rewrite H.
    destruct (pacf_confint (values ts) k method a) as [[r confint] | e];
      reflexivity.
  - right. split; [exact Hn |].
    pose proof (Hrest _ (fun k a =>
      rc <- pacf_confint (values ts) k method a ;; Ok (k, rc))) as H.
    cbv beta in H. destruct H as [msg H]. rewrite H. exists msg. reflexivity.
Qed.

Lemma plot_acf_not_univariate (ts : TimeSeries) (m : option PyNumber)
    (max_lag : option Z) (alpha : option R) (bartlett_confint : bool)
    (fig_size : Z * Z) (axis : option nat) :
  is_univariate ts = false ->
  exists msg,
    plot_acf acf_confint ts m max_lag alpha bartlett_confint fig_size axis =
    ([], Raise (ValueError msg)).
Proof.
  intros Hu. unfold plot_acf, _assert_univariate. rewrite Hu.
  eexists. reflexivity.
Qed.

Lemma plot_pacf_not_univariate (ts : TimeSeries) (m : option PyNumber)
    (max_lag : option Z) (method : string) (alpha : option R)
    (fig_size : Z * Z) (axis : option nat) :
  is_univariate ts = false ->
  exists msg,
    plot_pacf pacf_confint ts m max_lag method alpha fig_size axis =
    ([], Raise (ValueError msg)).
Proof.
  intros Hu. unfold plot_pacf, _assert_univariate. rewrite Hu.
  eexists. reflexivity.
Qed.

(** X15: [plot_acf] raises [ValueError] with nothing drawn, and whatever
    the autocorrelation collaborator, unless the series is univariate,
    [max_lag] is given with [1 <= max_lag < len(ts)], [m] is absent or in
    [0, max_lag], and [alpha] is given with [0 < alpha < 1].  In
    particular no choice of arguments is accepted for a series of fewer
    than two points. *)
Theorem plot_acf_rejects (ts : TimeSeries) (m : option PyNumber)
    (max_lag : option Z) (alpha : option R) (bartlett_confint : bool)
    (fig_size : Z * Z) (axis : option nat) :
  (~ (is_univariate ts = true /\ correlogram_args_ok (len ts) m max_lag alpha) ->
   exists msg,
     plot_acf acf_confint ts m max_lag alpha bartlett_confint fig_size axis =
     ([], Raise (ValueError msg))) /\
  ((len ts <= 1)%Z ->
   exists msg,
     plot_acf acf_confint ts m max_lag alpha bartlett_confint fig_size axis =
     ([], Raise (ValueError msg))).
Proof.
  assert (Hrej : ~ (is_univariate ts = true /\
                    correlogram_args_ok (len ts) m max_lag alpha) ->
                 exists msg,
                   plot_acf acf_confint ts m max_lag alpha bartlett_confint
                     fig_size axis = ([], Raise (ValueError msg))).
  { intros Hn. destruct (is_univariate ts) eqn:Hu;
      [| apply plot_acf_not_univariate; exact Hu].
    destruct (plot_acf_cases ts m max_lag alpha bartlett_confint fig_size axis Hu)
      as [(k & a & Hk & Hr & Hm & Ha & Hr' & _) | [_ Hmsg]]; [| exact Hmsg].
    exfalso. apply Hn. split; [reflexivity |]. exists k, a. auto. }
  split; [exact Hrej |].
  intros Hlen. apply Hrej. intros [_ (k & a & _ & Hr & _)]. lia.
Qed.

(** X16: when the arguments are accepted and the collaborator returns
    [max_lag + 1] correlations with their intervals, [plot_acf] succeeds
    and draws, in order: a new figure if no axis was given; one stem per
    lag from 0 to [max_lag]; the band over lags 1 to [max_lag], whose
    upper edge is the upper confidence limit minus the correlation and
    whose lower edge is its negation; the base line.  No stem is
    highlighted without [m], and exactly the stem at lag [m] is for an
    int [m]. *)
Theorem plot_acf_draws (ts : TimeSeries) (m : option PyNumber) (k : Z) (a : R)
    (bartlett_confint : bool) (fig_size : Z * Z) (axis : option nat)
    (r : list R) (confint : list (R * R)) :
  is_univariate ts = true ->
  (1 <= k < len ts)%Z ->
  highlight_in_range m k ->
  0 < a < 1 ->
  acf_confint (values ts) k a bartlett_confint = Ok (r, confint) ->
  Z.of_nat (List.length r) = (k + 1)%Z ->
  Z.of_nat (List.length confint) = (k + 1)%Z ->
  let on := match axis with None => Pyplot | Some h => Axis h end in
  let drawn :=
    match axis with None => [Figure fig_size] | Some _ => [] end ++
    map (stem on r m) (py_range 0 (k + 1)) ++
    [FillBetween on (py_range 1 (k + 1)) (band_of r confint k)
       (map Ropp (band_of r confint k)) "#003DFD" (1 / 4);
     Plot on (0%Z, (k + 1)%Z) (0, 0) "black" None] in
  plot_acf acf_confint ts m (Some k) (Some a) bartlett_confint fig_size axis =
  (drawn, Ok tt) /\
  (m = None -> filter is_highlight drawn = []) /\
  (forall z, m = Some (PyInt z) ->
   filter is_highlight drawn =
   [Plot on (z, z) (0, nth (Z.to_nat z) r 0) "#b512b8" (Some 1)]).
Proof.
  intros Hu Hk Hm Ha Hacf Hr Hc on drawn.
  split.
  - destruct (plot_acf_cases ts m (Some k) (Some a) bartlett_confint fig_size axis Hu)
      as [(k' & a' & Hk' & _ & _ & Ha' & _ & Hrun) | [Hn _]].
    + injection Hk' as <-. injection Ha' as <-.
      rewrite Hrun, Hacf. apply draw_correlogram_full; assumption.
    + exfalso. apply Hn. exists k, a. auto.
  - apply highlights_of_correlogram; [| exact Hm].
    destruct axis; intros c Hin; [destruct Hin |].
    destruct Hin as [<- | []]. reflexivity.
Qed.

(** X17: [plot_pacf] raises [ValueError] with nothing drawn, whatever the
    collaborator, unless the series is univariate, [max_lag] is given with
    [1 <= max_lag < len(ts) // 2], [m] is absent or in [0, max_lag], and
    [alpha] is given with [0 < alpha < 1].  A given [max_lag] is thus
    rejected on every series of fewer than [2 * max_lag + 2] points, and
    nothing is accepted on fewer than four points. *)
Theorem plot_pacf_rejects (ts : TimeSeries) (m : option PyNumber)
    (max_lag : option Z) (method : string) (alpha : option R)
    (fig_size : Z * Z) (axis : option nat) :
  (~ (is_univariate ts = true /\
      correlogram_args_ok (len ts / 2) m max_lag alpha) ->
   exists msg,
     plot_pacf pacf_confint ts m max_lag method alpha fig_size axis =
     ([], Raise (ValueError msg))) /\
  (forall k, max_lag = Some k -> (len ts < 2 * k + 2)%Z ->
   exists msg,
     plot_pacf pacf_confint ts m max_lag method alpha fig_size axis =
     ([], Raise (ValueError msg))) /\
  ((len ts <= 3)%Z ->
   exists msg,
     plot_pacf pacf_confint ts m max_lag method alpha fig_size axis =
     ([], Raise (ValueError msg))).
Proof.
  assert (Hrej : ~ (is_univariate ts = true /\
                    correlogram_args_ok (len ts / 2) m max_lag alpha) ->
                 exists msg,
                   plot_pacf pacf_confint ts m max_lag method alpha fig_size axis =
                   ([], Raise (ValueError msg))).
  { intros Hn. destruct (is_univariate ts) eqn:Hu;
      [| apply plot_pacf_not_univariate; exact Hu].
    destruct (plot_pacf_cases ts m max_lag method alpha fig_size axis Hu)
      as [(k & a & Hk & Hr & Hm & Ha & Hr' & _) | [_ Hmsg]]; [| exact Hmsg].
    exfalso. apply Hn. split; [reflexivity |]. exists k, a. auto. }
  split; [exact Hrej |]. split.
  - intros k Hk Hlen. apply Hrej. intros [_ (k' & a & Hk' & Hr & _)].
    rewrite Hk in Hk'. injection Hk' as <-.
    assert (len ts / 2 <= k)%Z; [| lia].
    apply Z.lt_succ_r, Z.div_lt_upper_bound; lia.
  - intros Hlen. apply Hrej. intros [_ (k & a & _ & Hr & _)].
    assert (len ts / 2 <= 1)%Z; [| lia].
    apply Z.lt_succ_r, Z.div_lt_upper_bound; lia.
Qed.

(** X18: when the arguments are accepted and the collaborator returns
    [max_lag + 1] partial correlations with their intervals, [plot_pacf]
    succeeds and draws the same picture as [plot_acf] does for those
    numbers: figure if no axis was given, stems for lags 0 to [max_lag],
    band over lags 1 to [max_lag], base line; the only highlighted stem is
    the one at an int [m]. *)
Theorem plot_pacf_draws (ts : TimeSeries) (m : option PyNumber) (k : Z)
    (method : string) (a : R) (fig_size : Z * Z) (axis : option nat)
    (r : list R) (confint : list (R * R)) :
  is_univariate ts = true ->
  (1 <= k < len ts / 2)%Z ->
  highlight_in_range m k ->
  0 < a < 1 ->
  pacf_confint (values ts) k method a = Ok (r, confint) ->
  Z.of_nat (List.length r) = (k + 1)%Z ->
  Z.of_nat (List.length confint) = (k + 1)%Z ->
  let on := match axis with None => Pyplot | Some h => Axis h end in
  let drawn :=
    match axis with None => [Figure fig_size] | Some _ => [] end ++
    map (stem on r m) (py_range 0 (k + 1)) ++
    [FillBetween on (py_range 1 (k + 1)) (band_of r confint k)
       (map Ropp (band_of r confint k)) "#003DFD" (1 / 4);
     Plot on (0%Z, (k + 1)%Z) (0, 0) "black" None] in
  plot_pacf pacf_confint ts m (Some k) method (Some a) fig_size axis =
  (drawn, Ok tt) /\
  (m = None -> filter is_highlight drawn = []) /\
  (forall z, m = Some (PyInt z) ->
   filter is_highlight drawn =
   [Plot on (z, z) (0, nth (Z.to_nat z) r 0) "#b512b8" (Some 1)]).
Proof.
  intros Hu Hk Hm Ha Hpacf Hr Hc on drawn.
  split.
  - destruct (plot_pacf_cases ts m (Some k) method (Some a) fig_size axis Hu)
      as [(k' & a' & Hk' & _ & _ & Ha' & _ & Hrun) | [Hn _]].
    + injection Hk' as <-. injection Ha' as <-.
      rewrite Hrun, Hpacf. apply draw_correlogram_full; assumption.
    + exfalso. apply Hn. exists k, a. auto.
  - apply highlights_of_correlogram; [| exact Hm].
    destruct axis; intros c Hin; [destruct Hin |].
    destruct Hin as [<- | []]. reflexivity.
Qed.

End PlotProperties.

(** ** Granger causality *)

Lemma has_same_time_as_true (ts other : TimeSeries) :
  has_same_time_as ts other = true <-> time_index ts = time_index other.
Proof.
  unfold has_same_time_as.
  destruct (list_eq_dec Z.eq_dec (time_index ts) (time_index other));
    split; intros; try easy.
Qed.

Section GrangerProperties.

Variable GrangerResult : Type.
Variable grangercausalitytests :
  list (R * R) -> Z -> bool -> bool -> result GrangerResult.
Variable _assert_deterministic : TimeSeries -> result unit.

(** X19: [granger_causality_tests] returns only when both series are
    univariate and deterministic and share their time index, with as many
    values in one as in the other; what it returns is then what the
    collaborator returns on the two-column data whose rows pair the value
    of the effect series (first) with the value of the cause series
    (second) at the same position. *)
Theorem granger_causality_tests_returns (ts_cause ts_effect : TimeSeries)
    (maxlag : Z) (addconst verbose : bool) (t : GrangerResult) :
  granger_causality_tests GrangerResult grangercausalitytests
    _assert_deterministic ts_cause ts_effect maxlag addconst verbose = Ok t ->
  is_univariate ts_cause = true /\
  is_univariate ts_effect = true /\
  _assert_deterministic ts_cause = Ok tt /\
  _assert_deterministic ts_effect = Ok tt /\
  time_index ts_cause = time_index ts_effect /\
  List.length (values ts_effect) = List.length (values ts_cause) /\
  grangercausalitytests (combine (values ts_effect) (values ts_cause))
    maxlag addconst verbose = Ok t.
Proof.
  unfold granger_causality_tests, _assert_univariate.
  destruct (is_univariate ts_cause); cbn [bind]; [| discriminate].
  destruct (is_univariate ts_effect); cbn [bind]; [| discriminate].
  destruct (_assert_deterministic ts_cause) as [[] |]; cbn [bind]; [| discriminate].
  destruct (_assert_deterministic ts_effect) as [[] |]; cbn [bind]; [| discriminate].
  unfold raise_if, raise_if_not.
  destruct (has_same_time_as ts_cause ts_effect) eqn:Htime; cbn [negb bind];
    [| discriminate].
  apply has_same_time_as_true in Htime.
  unfold concatenate_columns.
  destruct (Nat.eqb_spec (List.length (values ts_effect))
              (List.length (values ts_cause))) as [Hlen |]; cbn [bind];
    [| discriminate].
  intros Hres. repeat (split; [reflexivity || assumption |]). exact Hres.
Qed.

End GrangerProperties.

(** ** Every entry point requires a univariate series *)

Section Univariate.

Variable acf : list R -> Z -> result (list R).
Variable norm_ppf : R -> R.
Variable seasonal_decompose :
  list Z -> list R -> option Z -> option string -> result (list R * list R).
Variable acf_confint : list R -> Z -> R -> bool -> result (list R * list (R * R)).
Variable pacf_confint : list R -> Z -> string -> R -> result (list R * list (R * R)).
Variable GrangerResult : Type.
Variable grangercausalitytests :
  list (R * R) -> Z -> bool -> bool -> result GrangerResult.
Variable _assert_deterministic : TimeSeries -> result unit.

(** X20: on a series that is not univariate every function of the module
    that takes one raises [ValueError], whatever its other arguments and
    whatever the collaborators; the plot functions draw nothing, and
    [granger_causality_tests] rejects the pair whichever of the two series
    is the offending one. *)
Theorem non_univariate_rejected (ts : TimeSeries) :
  is_univariate ts = false ->
  (forall m max_lag alpha,
      InvalidArgument (check_seasonality acf norm_ppf ts m max_lag alpha)) /\
  (forall freq model,
      InvalidArgument (extract_trend_and_seasonality seasonal_decompose ts freq model)) /\
  (forall other model, InvalidArgument (remove_from_series ts other model)) /\
  (forall freq model,
      InvalidArgument (remove_seasonality seasonal_decompose ts freq model)) /\
  (forall model, InvalidArgument (remove_trend seasonal_decompose ts model)) /\
  (forall m max_lag alpha bartlett_confint fig_size axis,
      exists msg,
        plot_acf acf_confint ts m max_lag alpha bartlett_confint fig_size axis =
        ([], Raise (ValueError msg))) /\
  (forall m max_lag method alpha fig_size axis,
      exists msg,
        plot_pacf pacf_confint ts m max_lag method alpha fig_size axis =
        ([], Raise (ValueError msg))) /\
  (forall other maxlag addconst verbose,
      InvalidArgument
        (granger_causality_tests GrangerResult grangercausalitytests
           _assert_deterministic ts other maxlag addconst verbose) /\
      InvalidArgument
        (granger_causality_tests GrangerResult grangercausalitytests
           _assert_deterministic other ts maxlag addconst verbose)).
Proof.
  intros Hu. unfold InvalidArgument.
  repeat split; intros.
  - unfold check_seasonality, _assert_univariate. rewrite Hu. eexists. reflexivity.
  - unfold extract_trend_and_seasonality, _assert_univariate. rewrite Hu.
    eexists. reflexivity.
  - unfold remove_from_series, _assert_univariate. rewrite Hu. eexists. reflexivity.
  - unfold remove_seasonality, _assert_univariate. rewrite Hu. eexists. reflexivity.
  - unfold remove_trend, _assert_univariate. rewrite Hu. eexists. reflexivity.
  - unfold plot_acf, _assert_univariate. rewrite Hu. eexists. reflexivity.
  - unfold plot_pacf, _assert_univariate. rewrite Hu. eexists. reflexivity.
  - unfold granger_causality_tests, _assert_univariate. rewrite Hu.
    eexists. reflexivity.
  - unfold granger_causality_tests, _assert_univariate. rewrite Hu.
    destruct (is_univariate other); eexists; reflexivity.
Qed.

End Univariate.

(** ** Instances of the further properties on the sample series *)


(** With period 3 requested, the alternating series gets [(False, 3)]:
    lag 3 is the last lag, not a local maximum. *)
Lemma check_alternating_requested_3 :
  check_seasonality acf_direct ppf_196 ts_alternating (Some (PyInt 3)) 3 (5 / 100) =
  Ok (false, 3%Z).
Proof.
  rewrite (check_seasonality_candidates acf_direct ppf_196 ts_alternating
             (Some (PyInt 3)) 3 (5 / 100) [1; -3 / 4; 1 / 2; -1 / 4]
             eq_refl ltac:(simpl; lia) n_unique_alternating acf_direct_alternating
             candidates_alternating).
  simpl period_of. cbv iota. rewrite argrelmax_alternating. reflexivity.
Qed.

Lemma check_seasonality_positive_verdict_witness :
  exists r0,
    acf_direct (values ts_alternating) 3 = Ok r0 /\
    (1 <= 2 <= Z.of_nat (List.length r0) - 2)%Z /\
    nth (Z.to_nat 2) r0 0 > nth (Z.to_nat (2 - 1)) r0 0 /\
    nth (Z.to_nat 2) r0 0 > nth (Z.to_nat (2 + 1)) r0 0 /\
    significant (Py.slice_from1 r0)
      (Py.mean (Py.slice_from1 r0) +
       ppf_196 (1 - 5 / 100 / 2) * Py.var (Py.slice_from1 r0))
      (len ts_alternating) 2 /\
    (forall v, @None PyNumber = Some v -> v = PyInt 2).
Proof.
  apply (check_seasonality_positive_verdict acf_direct ppf_196 ts_alternating
           None 3 (5 / 100) 2 check_alternating).
Defined.

Lemma check_seasonality_negative_verdict_witness :
  3%Z = 0%Z \/
  (Some (PyInt 3) = Some (PyInt 3) /\ (2 <= 3 <= 3)%Z /\
   n_unique (values ts_alternating) <> 1%nat /\
   exists r0,
     acf_direct (values ts_alternating) 3 = Ok r0 /\
     ~ ((1 <= 3 <= Z.of_nat (List.length r0) - 2)%Z /\
        nth (Z.to_nat 3) r0 0 > nth (Z.to_nat (3 - 1)) r0 0 /\
        nth (Z.to_nat 3) r0 0 > nth (Z.to_nat (3 + 1)) r0 0)).
Proof.
  apply (check_seasonality_negative_verdict acf_direct ppf_196 ts_alternating
           (Some (PyInt 3)) 3 (5 / 100) 3 check_alternating_requested_3).
Defined.

Lemma check_seasonality_positive_below_max_lag_witness :
  (1 <= 2 <= 3 - 1)%Z /\ @None PyNumber <> Some (PyInt 3).
Proof.
  apply (check_seasonality_positive_below_max_lag acf_direct ppf_196
           ts_alternating None 3 (5 / 100) 2).
  - intros r0 Hacf.
    apply (acf_direct_length (values ts_alternating) 3 r0); [lia | exact Hacf].
  - apply check_alternating.
Defined.

Lemma check_seasonality_returns_verdict_witness :
  exists b p,
    check_seasonality acf_direct ppf_196 ts_alternating (Some (PyInt 2)) 3 (5 / 100) =
    Ok (b, p).
Proof.
  apply check_seasonality_returns_verdict.
  - reflexivity.
  - simpl. lia.
  - reflexivity.
  - right. eexists. apply acf_direct_alternating.
Defined.

Lemma remove_trend_composes_witness :
  remove_trend flat_decompose ts_alternating ModelMode_ADDITIVE =
  Ok (from_times_and_values [0; 1; 2; 3]%Z (map2 Rminus [1; 2; 1; 2] [1; 2; 1; 2])).
Proof.
  destruct (remove_trend_composes flat_decompose ts_alternating ModelMode_ADDITIVE
              eq_refl) as [Hok _].
  - left. left. reflexivity.
  - destruct (Hok [0; 0; 0; 0] [1; 2; 1; 2] eq_refl) as [Hadd _].
    apply Hadd. left. reflexivity.
Defined.

Lemma remove_seasonality_composes_witness :
  remove_seasonality flat_decompose ts_alternating (Some 2%Z)
    SeasonalityMode_MULTIPLICATIVE =
  Ok (from_times_and_values [0; 1; 2; 3]%Z (map2 Rdiv [1; 2; 1; 2] [1; 1; 1; 1])).
Proof.
  destruct (remove_seasonality_composes flat_decompose ts_alternating (Some 2%Z)
              SeasonalityMode_MULTIPLICATIVE eq_refl) as [Hok _].
  - right. right. reflexivity.
  - destruct (Hok [1; 1; 1; 1] [1; 2; 1; 2] eq_refl) as [_ Hmul].
    apply Hmul. right. reflexivity.
Defined.

Lemma remove_trend_rejects_witness :
  InvalidArgument (remove_trend flat_decompose ts_alternating SeasonalityMode_NONE).
Proof.
  apply remove_trend_rejects; intros [H | H]; discriminate H.
Defined.

Lemma model_enums_interchangeable_witness :
  remove_from_series ts_alternating ts_component ModelMode_ADDITIVE =
  remove_from_series ts_alternating ts_component SeasonalityMode_ADDITIVE /\
  remove_trend flat_decompose ts_alternating ModelMode_MULTIPLICATIVE =
  remove_trend flat_decompose ts_alternating SeasonalityMode_MULTIPLICATIVE.
Proof.
  split.
  - apply (model_enums_interchangeable flat_decompose ts_alternating ts_component
             None ModelMode_ADDITIVE SeasonalityMode_ADDITIVE).
    left. split; [left | right]; reflexivity.
  - apply (model_enums_interchangeable flat_decompose ts_alternating ts_component
             None ModelMode_MULTIPLICATIVE SeasonalityMode_MULTIPLICATIVE).
    right. split; [left | right]; reflexivity.
Defined.

Lemma remove_seasonality_then_restore_witness :
  exists d,
    remove_seasonality flat_decompose ts_alternating (Some 2%Z)
      ModelMode_MULTIPLICATIVE = Ok d /\
    ts_mul d (from_times_and_values [0; 1; 2; 3]%Z [1; 1; 1; 1]) = ts_alternating.
Proof.
  destruct (remove_seasonality_then_restore flat_decompose ts_alternating (Some 2%Z)
              ModelMode_MULTIPLICATIVE [1; 1; 1; 1] [1; 2; 1; 2]
              eq_refl eq_refl eq_refl) as [_ Hmul].
  apply Hmul; [left; reflexivity |].
  repeat (constructor; [lra |]). constructor.
Defined.

Lemma plot_acf_rejects_witness :
  (exists msg,
      plot_acf (fun x k a bc => Ok (harmonic_confint x k)) ts_constant None
        (Some 24%Z) (Some (5 / 100)) true (10, 5)%Z None =
      ([], Raise (ValueError msg))) /\
  (exists msg,
      plot_acf (fun x k a bc => Ok (harmonic_confint x k)) ts_alternating
        (Some (PyInt 4)) (Some 3%Z) (Some (5 / 100)) true (10, 5)%Z None =
      ([], Raise (ValueError msg))).
Proof.
  split.
  - apply (proj1 (plot_acf_rejects (fun x k a bc => Ok (harmonic_confint x k))
                    ts_constant None (Some 24%Z) (Some (5 / 100)) true (10, 5)%Z None)).
    intros [_ (k & a & Hk & Hr & _)]. injection Hk as <-.
    change (len ts_constant) with 3%Z in Hr. lia.
  - apply (proj1 (plot_acf_rejects (fun x k a bc => Ok (harmonic_confint x k))
                    ts_alternating (Some (PyInt 4)) (Some 3%Z) (Some (5 / 100)) true
                    (10, 5)%Z None)).
    intros [_ (k & a & Hk & _ & Hm & _)]. injection Hk as <-. simpl in Hm. lia.
Defined.

Lemma plot_acf_draws_witness :
  exists drawn,
    plot_acf (fun x k a bc => Ok (harmonic_confint x k)) ts_alternating
      (Some (PyInt 2)) (Some 3%Z) (Some (5 / 100)) true (10, 5)%Z None =
    (drawn, Ok tt) /\
    filter is_highlight drawn =
    [Plot Pyplot (2, 2)%Z
       (0, nth 2 (fst (harmonic_confint (values ts_alternating) 3)) 0)
       "#b512b8" (Some 1)].
Proof.
  pose proof (plot_acf_draws (fun x k a bc => Ok (harmonic_confint x k))
                ts_alternating (Some (PyInt 2)) 3 (5 / 100) true (10, 5)%Z None
                (fst (harmonic_confint (values ts_alternating) 3))
                (snd (harmonic_confint (values ts_alternating) 3))
                eq_refl) as H.
  cbv zeta in H.
  destruct H as (Hrun & _ & Hhl);
    try solve [reflexivity | simpl; lia | lra | change (len ts_alternating) with 4%Z; lia].
  eexists. split; [exact Hrun |]. apply Hhl. reflexivity.
Defined.

Lemma plot_pacf_rejects_witness :
  exists msg,
    plot_pacf (fun x k method a => Ok (harmonic_confint x k)) ts_alternating None
      (Some 2%Z) "ywadjusted" (Some (5 / 100)) (10, 5)%Z None =
    ([], Raise (ValueError msg)).
Proof.
  destruct (plot_pacf_rejects (fun x k method a => Ok (harmonic_confint x k))
              ts_alternating None (Some 2%Z) "ywadjusted" (Some (5 / 100))
              (10, 5)%Z None) as (_ & Hshort & _).
  apply (Hshort 2%Z eq_refl). change (len ts_alternating) with 4%Z. lia.
Defined.

Lemma plot_pacf_draws_witness :
  exists drawn,
    plot_pacf (fun x k method a => Ok (harmonic_confint x k)) ts_alternating
      (Some (PyInt 1)) (Some 1%Z) "ywadjusted" (Some (5 / 100)) (10, 5)%Z (Some 7%nat) =
    (drawn, Ok tt) /\
    filter is_highlight drawn =
    [Plot (Axis 7) (1, 1)%Z
       (0, nth 1 (fst (harmonic_confint (values ts_alternating) 1)) 0)
       "#b512b8" (Some 1)].
Proof.
  pose proof (plot_pacf_draws (fun x k method a => Ok (harmonic_confint x k))
                ts_alternating (Some (PyInt 1)) 1 "ywadjusted" (5 / 100) (10, 5)%Z
                (Some 7%nat)
                (fst (harmonic_confint (values ts_alternating) 1))
                (snd (harmonic_confint (values ts_alternating) 1))
                eq_refl) as H.
  cbv zeta in H.
  destruct H as (Hrun & _ & Hhl);
    try solve [reflexivity | simpl; lia | lra
              | change (len ts_alternating / 2)%Z with 2%Z; lia].
  eexists. split; [exact Hrun |]. apply Hhl. reflexivity.
Defined.

Lemma granger_causality_tests_returns_witness :
  is_univariate ts_component = true /\
  is_univariate ts_alternating = true /\
  time_index ts_component = time_index ts_alternating /\
  List.length (values ts_alternating) = List.length (values ts_component).
Proof.
  destruct (granger_causality_tests_returns nat
              (fun data _ _ _ => Ok (List.length data)) (fun _ => Ok tt)
              ts_component ts_alternating 2 true false 4%nat eq_refl)
    as (Hc & He & _ & _ & Htime & Hlen & _).
  auto.
Defined.

Lemma non_univariate_rejected_witness :
  InvalidArgument
    (check_seasonality acf_direct ppf_196 ts_bivariate None 3 (5 / 100)) /\
  InvalidArgument (remove_from_series ts_bivariate ts_bivariate ModelMode_ADDITIVE).
Proof.
  destruct (non_univariate_rejected acf_direct ppf_196 flat_decompose
              (fun x k a bc => Ok (harmonic_confint x k))
              (fun x k method a => Ok (harmonic_confint x k))
              nat (fun data _ _ _ => Ok (List.length data)) (fun _ => Ok tt)
              ts_bivariate eq_refl) as (Hcheck & _ & Hremove & _).
  split; [apply Hcheck | apply Hremove].
Defined.
